(** * TE-enrichment pipeline scripts: [1_format_RM.py] and [2_add_TEclass.py]

    A shallow embedding of the two command-line scripts of the repository
    and the properties of their file-to-file transformations.

    - A Python [str] is a sequence of Unicode code points: [list N].
    - The file system and standard output are an explicit [world]; the
      scripts run in a state-and-exception monad over it, so that
      [try]/[except], [with open(...)] and [print] read as in the source.
    - [dict] is an insertion-ordered association list (the diagnostics
      iterate over it in order); [set] is a [gset]. *)

From Stdlib Require Import NArith Ascii String DecimalString.
From stdpp Require Import base option list gmap.

Local Open Scope N_scope.
Local Open Scope nat_scope.
Local Open Scope list_scope.

(** ** Python strings *)

Abbreviation char := N (only parsing).
Abbreviation str := (list N) (only parsing).

Module Py.

(** A literal of the source, as the code points of its characters. *)
Definition lit (s : string) : str :=
  map N_of_ascii (list_ascii_of_string s).

Definition TAB : char := 9%N.
Definition NL : char := 10%N.
Definition CR : char := 13%N.
Definition QUOTE : char := 34%N.
Definition HASH : char := 35%N.
Definition APOS : char := 39%N.

(** [str.isspace] on one character, which is also the class [\s] of
    [re] for [str] patterns: the code points CPython lists in
    [_PyUnicode_IsWhitespace]. *)
Definition isspace (c : char) : bool :=
  ((9 <=? c) && (c <=? 13) || (28 <=? c) && (c <=? 32)
   || (c =? 133) || (c =? 160) || (c =? 5760)
   || (8192 <=? c) && (c <=? 8202)
   || (c =? 8232) || (c =? 8233) || (c =? 8239) || (c =? 8287)
   || (c =? 12288))%N.

(** [s.lstrip()], [s.rstrip()], [s.strip()] *)
Fixpoint lstrip (s : str) : str :=
  match s with
  | c :: s' => if isspace c then lstrip s' else s
  | [] => []
  end.

Definition rstrip (s : str) : str := rev (lstrip (rev s)).

Definition strip (s : str) : str := rstrip (lstrip s).

(** [s.startswith(p)] *)
Fixpoint startswith (s p : str) : bool :=
  match p, s with
  | [], _ => true
  | a :: p', c :: s' => (c =? a)%N && startswith s' p'
  | _ :: _, [] => false
  end.

(** [s.split(sep)] for a one-character separator: one field more than
    there are separators, empty fields kept. *)
Fixpoint split (sep : char) (s : str) : list str :=
  match s with
  | [] => [[]]
  | c :: s' =>
      if (c =? sep)%N then [] :: split sep s'
      else match split sep s' with
           | f :: fs => (c :: f) :: fs
           | [] => [[c]]
           end
  end.

(** [sep.join(parts)] *)
Fixpoint join (sep : str) (parts : list str) : str :=
  match parts with
  | [] => []
  | [p] => p
  | p :: ps => p ++ sep ++ join sep ps
  end.

(** [re.sub(r'\s+', repl, s)]: every maximal run of whitespace becomes
    one [repl]. [in_run] says that the previous character was
    whitespace, so that the run has been replaced already. *)
Fixpoint re_sub_spaces_from (in_run : bool) (repl : str) (s : str) : str :=
  match s with
  | [] => []
  | c :: s' =>
      if isspace c
      then (if in_run then [] else repl) ++ re_sub_spaces_from true repl s'
      else c :: re_sub_spaces_from false repl s'
  end.

Definition re_sub_spaces (repl s : str) : str :=
  re_sub_spaces_from false repl s.

(** The greedy group of the pattern (one or more characters that are
    neither a double quote nor whitespace): the longest such prefix. *)
Definition motif_char (c : char) : bool :=
  negb (c =? QUOTE)%N && negb (isspace c).

Fixpoint span_motif (s : str) : str :=
  match s with
  | c :: s' => if motif_char c then c :: span_motif s' else []
  | [] => []
  end.

(** What is left of [s] after the prefix [p], if [s] starts with it. *)
Fixpoint after_prefix (p s : str) : option str :=
  match p, s with
  | [], _ => Some s
  | a :: p', c :: s' => if (c =? a)%N then after_prefix p' s' else None
  | _ :: _, [] => None
  end.

(** [re.search] for the pattern [Motif:] followed by the group above,
    returning [match.group(1)]: the leftmost position where [Motif:] is
    followed by at least one group character, and the longest group
    there. *)
Fixpoint re_search_motif (s : str) : option str :=
  match s with
  | [] => None
  | _ :: s' =>
      match after_prefix (lit "Motif:") s with
      | Some rest =>
          match span_motif rest with
          | [] => re_search_motif s'
          | g => Some g
          end
      | None => re_search_motif s'
      end
  end.

(** The lines of a text file as [f.readlines()] and [for line in f]
    give them (universal newlines: CR LF and a lone CR both end a line
    and are read as LF). A line keeps its terminator; the last line has
    none when the file does not end with one. [cur] is the current
    line, reversed. *)
Fixpoint lines_from (cur : str) (s : str) : list str :=
  match s with
  | [] => match cur with [] => [] | _ => [rev cur] end
  | c :: s' =>
      if (c =? NL)%N then rev (NL :: cur) :: lines_from [] s'
      else if (c =? CR)%N then
        match s' with
        | c' :: s'' =>
            if (c' =? NL)%N then rev (NL :: cur) :: lines_from [] s''
            else rev (NL :: cur) :: lines_from [] s'
        | [] => [rev (NL :: cur)]
        end
      else lines_from (c :: cur) s'
  end.

Definition lines_of (content : str) : list str := lines_from [] content.

(** [dict] with [str] keys and values, in insertion order: assigning
    to a key that is present replaces its value in place. *)
Definition dict := list (str * str).

Fixpoint dict_set (d : dict) (k v : str) : dict :=
  match d with
  | [] => [(k, v)]
  | (k', v') :: d' =>
      if decide (k' = k) then (k, v) :: d' else (k', v') :: dict_set d' k v
  end.

Fixpoint dict_get (d : dict) (k : str) : option str :=
  match d with
  | [] => None
  | (k', v') :: d' => if decide (k' = k) then Some v' else dict_get d' k
  end.

Definition dict_keys (d : dict) : list str := map fst d.

(** Truth value of a [str], a [list] or a [dict]: non-empty. *)
Definition truthy {A} (l : list A) : bool :=
  match l with [] => false | _ => true end.

(** [str(n)] for a non-negative [int] *)
Definition str_of_nat (n : nat) : str :=
  lit (NilZero.string_of_uint (Nat.to_uint n)).

End Py.

(** ** The world: files, standard output, exceptions *)

Inductive exn :=
| FileNotFoundError (filename : str)
| ValueError (msg : str)
| Exception (msg : str).

(** What a path names: a text file with its content, or something that
    [open] refuses with the given exception (a directory, a file without
    permission). A path bound to nothing does not exist. *)
Inductive node :=
| Regular (content : str)
| Unopenable (e : exn).

Inductive mode := R | W.

Record world := World {
  files : gmap (list N) node;
  stdout : list str;          (* one entry per [print] call *)
  opens : list (str * mode)   (* the calls to [open], oldest first *)
}.

Inductive result (A : Type) :=
| Ok (a : A)
| Raise (e : exn).
Arguments Ok {A} a.
Arguments Raise {A} e.

Definition M (A : Type) : Type := world -> result A * world.

#[global] Instance M_ret : MRet M := fun A a w => (Ok a, w).

#[global] Instance M_bind : MBind M := fun A B f m w =>
  match m w with
  | (Ok a, w') => f a w'
  | (Raise e, w') => (Raise e, w')
  end.

(** [try: body  except ...:], the clauses as a partial function: [None]
    for an exception that no clause names, which goes on up. *)
Definition try_except {A} (body : M A) (handlers : exn -> option (M A)) : M A :=
  fun w =>
    match body w with
    | (Ok a, w') => (Ok a, w')
    | (Raise e, w') =>
        match handlers e with
        | Some h => h w'
        | None => (Raise e, w')
        end
    end.

Definition raise {A} (e : exn) : M A := fun w => (Raise e, w).

(** [for x in xs: body] *)
Fixpoint for_ {A} (xs : list A) (body : A -> M unit) : M unit :=
  match xs with
  | [] => mret tt
  | x :: xs' => body x ;; for_ xs' body
  end.

(** [for x in xs: body], the local variables that the body assigns to
    passed along as [s]. *)
Fixpoint for_with {A S} (xs : list A) (s : S) (body : S -> A -> M S) : M S :=
  match xs with
  | [] => mret s
  | x :: xs' => s' ← body s x; for_with xs' s' body
  end.

(** A file object: the path it was opened on, and how. *)
Record file := File { name : str; fmode : mode }.

(** [open(path, 'r')] and [open(path, 'w')]. Opening for writing creates
    the file or empties it. *)
Definition open (path : str) (m : mode) : M file := fun w =>
  let w := World (files w) (stdout w) (opens w ++ [(path, m)]) in
  match files w !! path, m with
  | Some (Unopenable e), _ => (Raise e, w)
  | None, R => (Raise (FileNotFoundError path), w)
  | Some (Regular _), R => (Ok (File path R), w)
  | _, W =>
      (Ok (File path W),
       World (<[path := Regular []]> (files w)) (stdout w) (opens w))
  end.

(** [f.readlines()], and the lines that [for line in f] goes through. *)
Definition readlines (f : file) : M (list str) := fun w =>
  match files w !! name f with
  | Some (Regular content) => (Ok (Py.lines_of content), w)
  | _ => (Ok [], w)
  end.

(** [f.write(data)] *)
Definition write (f : file) (data : str) : M unit := fun w =>
  match files w !! name f with
  | Some (Regular content) =>
      (Ok tt,
       World (<[name f := Regular (content ++ data)]> (files w))
             (stdout w) (opens w))
  | _ => (Ok tt, w)
  end.

Definition print (msg : str) : M unit := fun w =>
  (Ok tt, World (files w) (stdout w ++ [msg]) (opens w)).

(** [a, b = parts] *)
Definition unpack2 (parts : list str) : M (str * str) :=
  match parts with
  | [a; b] => mret (a, b)
  | [] | [_] =>
      raise (ValueError (Py.lit "not enough values to unpack (expected 2, got "
                         ++ Py.str_of_nat (length parts) ++ Py.lit ")"))
  | _ => raise (ValueError (Py.lit "too many values to unpack (expected 2)"))
  end.

(** ** Stage A: [1_format_RM.py] *)

Module FormatRM.
Import Py.

Definition header : list str :=
  map lit
    ["SW_score"; "perc_div"; "perc_del"; "perc_ins"; "query_sequence";
     "begin"; "end"; "left"; "strand"; "matching_repeat"; "repeat_class_family";
     "begin_in_repeat"; "end_in_repeat"; "left_in_repeat"; "ID"; "optional_star"]%string.

(** The body of [for line in data_lines]. *)
Definition process_line (main_outfile extra_outfile : file) (line : str) : M unit :=
  let clean_line := strip line in
  if negb (truthy clean_line) then mret tt (* continue *)
  else
    let tab_delimited_line := re_sub_spaces [TAB] clean_line in
    write main_outfile (tab_delimited_line ++ [NL]);;
    let columns := split TAB tab_delimited_line in
    if 11 <=? length columns then
      let matching_repeat := nth 9 columns [] in
      let repeat_class_family := nth 10 columns [] in
      write extra_outfile (matching_repeat ++ [TAB] ++ repeat_class_family ++ [NL])
    else
      print (lit "Warning: Skipped a line with fewer than 11 columns: '"
             ++ clean_line ++ lit "'").

Definition format_repeatmasker_output
    (input_file main_output_file extra_output_file : str) : M unit :=
  try_except
    (infile ← open input_file R;
     all_lines ← readlines infile;
     let data_lines := drop 3 all_lines in
     main_outfile ← open main_output_file W;
     extra_outfile ← open extra_output_file W;
     write main_outfile (join [TAB] header ++ [NL]);;
     for_ data_lines (process_line main_outfile extra_outfile);;
     print (lit "Successfully processed '" ++ input_file ++ lit "'.");;
     print (lit "  - Main TSV saved to: '" ++ main_output_file ++ lit "'");;
     print (lit "  - Extra columns saved to: '" ++ extra_output_file ++ lit "'"))
    (fun e =>
       match e with
       | FileNotFoundError _ =>
           Some (print (lit "Error: The file '" ++ input_file ++ lit "' was not found."))
       | ValueError msg | Exception msg =>
           Some (print (lit "An error occurred: " ++ msg))
       end).

End FormatRM.

(** ** Stage B: [2_add_TEclass.py] *)

Module AddTEclass.
Import Py.

(** The diagnostic variables of the second step. *)
Record diag := Diag {
  found_count : nat;
  unknown_count : nat;
  unknown_motifs_found : gset (list N);
  motifs_in_gff : gset (list N)
}.

(** The body of [for line in f] of the first step; [motif_to_family] is
    the dictionary built so far. *)
Definition read_family (motif_to_family : dict) (line : str) : M dict :=
  let line := strip line in
  if negb (truthy line) then mret motif_to_family (* continue *)
  else
    try_except
      ('(motif, family) ← unpack2 (split TAB (strip line));
       mret (dict_set motif_to_family motif family))
      (fun e =>
         match e with
         | ValueError _ =>
             Some (print (lit "Warning: Skipping malformed line in family list: '"
                          ++ line ++ lit "'");;
                   mret motif_to_family)
         | _ => None
         end).

(** The body of [for line in infile] of the second step. *)
Definition annotate_line (motif_to_family : dict) (outfile : file)
    (d : diag) (line : str) : M diag :=
  if startswith line [HASH] then mret d (* continue *)
  else
    let line_stripped := strip line in
    if negb (truthy line_stripped) then mret d (* continue *)
    else
      let parts := split TAB line_stripped in
      if length parts <? 9 then mret d (* continue *)
      else
        let attributes := nth 8 parts [] in
        let family_to_add := lit "UNKNOWN" in
        let '(family_to_add, d) :=
          match re_search_motif attributes with
          | Some motif =>
              let d := Diag (found_count d) (unknown_count d)
                            (unknown_motifs_found d) ({[motif]} ∪ motifs_in_gff d) in
              match dict_get motif_to_family motif with
              | Some family =>
                  (family,
                   Diag (found_count d + 1) (unknown_count d)
                        (unknown_motifs_found d) (motifs_in_gff d))
              | None =>
                  (family_to_add,
                   Diag (found_count d) (unknown_count d + 1)
                        ({[motif]} ∪ unknown_motifs_found d) (motifs_in_gff d))
              end
          | None =>
              (family_to_add,
               Diag (found_count d) (unknown_count d + 1)
                    (unknown_motifs_found d) (motifs_in_gff d))
          end in
        write outfile (line_stripped ++ [TAB] ++ family_to_add ++ [NL]);;
        mret d.

Section Run.
(** Two things Python leaves to the interpreter: [repr] of a [str]
    (in the message of a [FileNotFoundError]) and the order in which
    [list(s)] gives the elements of a set. *)
Context (repr : str -> str) (list_of_set : gset (list N) -> list str).

(** [str(e)] *)
Definition exn_str (e : exn) : str :=
  match e with
  | FileNotFoundError filename =>
      lit "[Errno 2] No such file or directory: " ++ repr filename
  | ValueError msg | Exception msg => msg
  end.

Definition mismatch_analysis (motif_to_family : dict) (d : diag) : M unit :=
  print ([NL] ++ lit "--- Mismatch Analysis ---");;
  print (lit "To fix this, compare the names from the GFF with the names in your family list.");;
  print ([NL] ++ lit "Examples of motifs found in your GFF file:");;
  for_ (take 5 (list_of_set (motifs_in_gff d)))
       (fun motif => print (lit "  - '" ++ motif ++ lit "'"));;
  print ([NL] ++ lit "Examples of motifs from your family list file (the lookup keys):");;
  for_ (take 5 (dict_keys motif_to_family))
       (fun motif => print (lit "  - '" ++ motif ++ lit "'"));;
  print ([NL] ++ lit "Check for subtle differences like parentheses, quotes, or extra characters.").

Definition add_family_column
    (gff_input_file family_list_file output_file : str) : M unit :=
  print (lit "--- Starting Process ---");;
  try_except
    (print (lit "Reading TE family map from '" ++ family_list_file ++ lit "'...");;
     f ← open family_list_file R;
     family_lines ← readlines f;
     motif_to_family ← for_with family_lines [] read_family;
     if negb (truthy motif_to_family) then
       print ([NL] ++ lit "Error: The family lookup dictionary is empty. Please check your family list file.")
       (* return *)
     else
       print (lit "Successfully mapped " ++ str_of_nat (length motif_to_family)
              ++ lit " motifs.");;
       let d := Diag 0 0 ∅ ∅ in
       print (lit "Processing '" ++ gff_input_file ++ lit "' and writing to '"
              ++ output_file ++ lit "'...");;
       infile ← open gff_input_file R;
       outfile ← open output_file W;
       gff_lines ← readlines infile;
       d ← for_with gff_lines d (annotate_line motif_to_family outfile);
       print ([NL] ++ lit "--- Process Finished ---");;
       print (lit "Output file saved to '" ++ output_file ++ lit "'");;
       print ([NL] ++ lit "--- Diagnostic Summary ---");;
       print (lit "Successfully mapped motifs: " ++ str_of_nat (found_count d));;
       print (lit "Motifs not found (marked as UNKNOWN): "
              ++ str_of_nat (unknown_count d));;
       if 0 <? unknown_count d then mismatch_analysis motif_to_family d
       else mret tt)
    (fun e =>
       match e with
       | FileNotFoundError _ =>
           Some (print (lit "Error: A required file was not found. Details: "
                        ++ exn_str e))
       | ValueError _ | Exception _ =>
           Some (print (lit "An unexpected error occurred: " ++ exn_str e))
       end).
End Run.

End AddTEclass.

(** ** Vocabulary of the specification *)

(** A line that is not blank after trimming. *)
Definition nonblank (line : str) : bool := Py.truthy (Py.strip line).

(** The whitespace-delimited tokens of a line: its maximal runs of
    characters that are not whitespace, in order (what [line.split()]
    gives). *)
Fixpoint tokens (s : str) : list str :=
  match s with
  | [] => []
  | c :: s' =>
      if Py.isspace c then tokens s'
      else match s' with
           | [] => [[c]]
           | c' :: _ =>
               if Py.isspace c' then [c] :: tokens s'
               else match tokens s' with
                    | t :: ts => (c :: t) :: ts
                    | [] => [[c]]
                    end
           end
  end.

(** A text whose last character is not whitespace. *)
Definition ends_clean (s : str) : Prop :=
  exists x, last s = Some x /\ Py.isspace x = false.

(** A text with no line terminator in it. *)
Definition one_line (b : str) : Prop :=
  Forall (fun c => c <> Py.NL /\ c <> Py.CR) b.

(** A line as reading a file gives it: no terminator inside, a newline
    at its end unless it is the last line of a file that does not end
    with one. *)
Definition is_line (l : str) : Prop :=
  exists b, one_line b /\ (l = b ++ [Py.NL] \/ (l = b /\ b <> [])).

(** A path that [open(path, 'w')] accepts. *)
Definition creatable (w : world) (path : str) : Prop :=
  forall e, files w !! path <> Some (Unopenable e).

(** The text of a file, when the path names one. *)
Definition text_of (w : world) (path : str) : option str :=
  match files w !! path with
  | Some (Regular content) => Some content
  | _ => None
  end.

(** ** What the loops compute, line by line *)

Module Rows.
Import Py.

(** Stage A: the row of the main output for a non-blank line. *)
Definition main_row (line : str) : str :=
  re_sub_spaces [TAB] (strip line) ++ [NL].

(** Stage A: the row of the side output for a line, if it has one. *)
Definition extra_row (line : str) : option str :=
  let columns := split TAB (re_sub_spaces [TAB] (strip line)) in
  if nonblank line && (11 <=? length columns)
  then Some (nth 9 columns [] ++ [TAB] ++ nth 10 columns [] ++ [NL])
  else None.

(** Stage A: the warning printed for a line, if there is one. *)
Definition warning (line : str) : option str :=
  let columns := split TAB (re_sub_spaces [TAB] (strip line)) in
  if nonblank line && negb (11 <=? length columns)
  then Some (lit "Warning: Skipped a line with fewer than 11 columns: '"
             ++ strip line ++ lit "'")
  else None.

Definition main_rows (lines : list str) : list str :=
  map main_row (List.filter nonblank lines).

Definition extra_rows (lines : list str) : list str := omap extra_row lines.

Definition warnings (lines : list str) : list str := omap warning lines.

(** Stage B, first step: a line of the lookup file that gives an
    entry, with the entry. *)
Definition entry (line : str) : option (str * str) :=
  match split TAB (strip (strip line)) with
  | [motif; family] => if nonblank line then Some (motif, family) else None
  | _ => None
  end.

Definition malformed (line : str) : bool :=
  nonblank line && negb (length (split TAB (strip (strip line))) =? 2).

Definition lookup_of (lines : list str) : dict :=
  fold_left (fun d line =>
               match entry line with
               | Some (motif, family) => dict_set d motif family
               | None => d
               end) lines [].

Definition lookup_warnings (lines : list str) : list str :=
  map (fun line => lit "Warning: Skipping malformed line in family list: '"
                   ++ strip line ++ lit "'")
      (List.filter malformed lines).

(** Stage B, second step: a line that is annotated. *)
Definition qualifies (line : str) : bool :=
  negb (startswith line [HASH]) && nonblank line
  && (9 <=? length (split TAB (strip line))).

(** The attributes column of a line (field index 8). *)
Definition attributes (line : str) : str :=
  nth 8 (split TAB (strip line)) [].

(** The label appended to a qualifying line. *)
Definition label (d : dict) (line : str) : str :=
  match re_search_motif (attributes line) with
  | Some motif =>
      match dict_get d motif with
      | Some family => family
      | None => lit "UNKNOWN"
      end
  | None => lit "UNKNOWN"
  end.

(** The diagnostic variables after a line. *)
Definition tally (d : dict) (dg : AddTEclass.diag) (line : str) : AddTEclass.diag :=
  let '(AddTEclass.Diag found unknown unknown_motifs motifs) := dg in
  if qualifies line then
    match re_search_motif (attributes line) with
    | Some motif =>
        match dict_get d motif with
        | Some _ =>
            AddTEclass.Diag (found + 1) unknown unknown_motifs ({[motif]} ∪ motifs)
        | None =>
            AddTEclass.Diag found (unknown + 1) ({[motif]} ∪ unknown_motifs)
                            ({[motif]} ∪ motifs)
        end
    | None => AddTEclass.Diag found (unknown + 1) unknown_motifs motifs
    end
  else dg.

Definition gff_row (d : dict) (line : str) : option str :=
  if qualifies line
  then Some (strip line ++ [TAB] ++ label d line ++ [NL])
  else None.

Definition gff_rows (d : dict) (lines : list str) : list str :=
  omap (gff_row d) lines.

(** What is printed after the second step. *)
Definition report (list_of_set : gset (list N) -> list str)
    (d : dict) (dg : AddTEclass.diag) (output_file : str) : list str :=
  [ [NL] ++ lit "--- Process Finished ---";
    lit "Output file saved to '" ++ output_file ++ lit "'";
    [NL] ++ lit "--- Diagnostic Summary ---";
    lit "Successfully mapped motifs: " ++ str_of_nat (AddTEclass.found_count dg);
    lit "Motifs not found (marked as UNKNOWN): "
    ++ str_of_nat (AddTEclass.unknown_count dg) ]
  ++ (if 0 <? AddTEclass.unknown_count dg then
        [ [NL] ++ lit "--- Mismatch Analysis ---";
          lit "To fix this, compare the names from the GFF with the names in your family list.";
          [NL] ++ lit "Examples of motifs found in your GFF file:" ]
        ++ map (fun motif => lit "  - '" ++ motif ++ lit "'")
               (take 5 (list_of_set (AddTEclass.motifs_in_gff dg)))
        ++ [ [NL] ++ lit "Examples of motifs from your family list file (the lookup keys):" ]
        ++ map (fun motif => lit "  - '" ++ motif ++ lit "'")
               (take 5 (dict_keys d))
        ++ [ [NL] ++ lit "Check for subtle differences like parentheses, quotes, or extra characters." ]
      else []).

End Rows.

(** ** Sample files *)

Module Sample.
Import Py.

(** The record of the specification's scenario. *)
Definition record : str :=
  lit "12  1.2  3  0  seq1  1  10  (90)  +  rnd-1_family  LINE/L1  1  10  (0)  1".

(** A report: three heading lines, the record, a blank line and a
    short record. *)
Definition report : str :=
  lit "   SW   perc perc" ++ [NL] ++ lit "score   div. del." ++ [NL] ++ [NL]
  ++ lit "   " ++ record ++ [NL] ++ lit "  " ++ [NL] ++ lit "7 8" ++ [TAB] ++ lit "9" ++ [NL].

Definition world_A : world :=
  World {[ lit "rm.out" := Regular report ]} [] [].

(** The main output for [report], without its header line. *)
Definition main_data : str :=
  join [TAB] (tokens record) ++ [NL]
  ++ lit "7" ++ [TAB] ++ lit "8" ++ [TAB] ++ lit "9" ++ [NL].

Definition world_A2 : world :=
  World {[ lit "main_data.tsv" := Regular main_data ]} [] [].

(** The GFF line of the specification's scenario, and variants of it. *)
Definition gff_columns : str :=
  lit "chr1" ++ [TAB] ++ lit "rm" ++ [TAB] ++ lit "match" ++ [TAB] ++ lit "1" ++ [TAB]
  ++ lit "10" ++ [TAB] ++ lit "." ++ [TAB] ++ lit "+" ++ [TAB] ++ lit "." ++ [TAB].

Definition gff_record : str :=
  gff_columns ++ lit "Target " ++ [QUOTE] ++ lit "Motif:rnd-1_family" ++ [QUOTE]
  ++ lit " 1 10".

Definition gff_unmapped : str :=
  gff_columns ++ lit "Target " ++ [QUOTE] ++ lit "Motif:rnd-9_family" ++ [QUOTE]
  ++ lit " 1 10".

Definition gff_no_motif : str := gff_columns ++ lit "Target none".

(** A line that starts with a space and then [#], with nine columns. *)
Definition gff_indented_hash : str := lit " #" ++ gff_record.

Definition gff_text : str :=
  lit "##gff-version 3" ++ [NL] ++ gff_record ++ [NL] ++ lit "  " ++ [NL]
  ++ gff_unmapped ++ [NL] ++ lit "short" ++ [TAB] ++ lit "line" ++ [NL]
  ++ gff_no_motif ++ [NL].

Definition lookup_text : str :=
  lit "rnd-1_family" ++ [TAB] ++ lit "SINE" ++ [NL] ++ [NL]
  ++ lit "three" ++ [TAB] ++ lit "field" ++ [TAB] ++ lit "line" ++ [NL]
  ++ lit "rnd-2_family" ++ [TAB] ++ lit "DNA" ++ [NL]
  ++ lit "rnd-1_family" ++ [TAB] ++ lit "LINE" ++ [NL].

Definition world_B : world :=
  World {[ lit "te.gff" := Regular gff_text;
           lit "families.tsv" := Regular lookup_text ]} [] [].

(** A GFF file with a comment and an indented [#] line. *)
Definition gff_hash_text : str :=
  lit "##gff-version 3" ++ [NL] ++ gff_indented_hash ++ [NL].

Definition world_B_hash : world :=
  World {[ lit "te.gff" := Regular gff_hash_text;
           lit "families.tsv" := Regular lookup_text ]} [] [].

(** A lookup file with no line of two fields. *)
Definition world_B_empty : world :=
  World {[ lit "te.gff" := Regular gff_text;
           lit "families.tsv" := Regular (lit "one" ++ [NL] ++ [NL]) ]} [] [].

End Sample.

(** ** Frames *)



(** The keys of a sequence of assignments, each at its first place. *)
Definition first_occurrences (keys : list str) : list str :=
  rev (remove_dups (rev keys)).

(** ** Sample worlds for the failures *)

Module Edge.
Import Py.

(** The report of [Sample], beside a side output that cannot be opened
    and a main output in a directory that does not exist. *)
Definition world_A_refused : world :=
  World {[ lit "rm.out" := Regular Sample.report;
           lit "main.tsv" := Regular (lit "old content" ++ [NL]);
           lit "locked.tsv" :=
             Unopenable (Exception (lit "[Errno 13] Permission denied: 'locked.tsv'"));
           lit "nodir/main.tsv" := Unopenable (FileNotFoundError (lit "nodir/main.tsv")) ]}
        [] [].

(** The files of [Sample.world_B], beside an output that cannot be
    opened. *)
Definition world_B_refused : world :=
  World {[ lit "te.gff" := Regular Sample.gff_text;
           lit "families.tsv" := Regular Sample.lookup_text;
           lit "locked.gff" :=
             Unopenable (Exception (lit "[Errno 13] Permission denied: 'locked.gff'")) ]}
        [] [].

End Edge.

(** * Properties *)

(** ** Whitespace, trimming and tokens *)

Section Strings.
Import Py.

Lemma isspace_not_tab c : isspace c = false -> (c =? TAB)%N = false.
Proof.
  intros H. destruct (N.eqb_spec c TAB) as [->|]; [discriminate H | reflexivity].
Qed.

Lemma isspace_not_nl c : isspace c = false -> (c =? NL)%N = false.
Proof.
  intros H. destruct (N.eqb_spec c NL) as [->|]; [discriminate H | reflexivity].
Qed.

Lemma isspace_not_cr c : isspace c = false -> (c =? CR)%N = false.
Proof.
  intros H. destruct (N.eqb_spec c CR) as [->|]; [discriminate H | reflexivity].
Qed.

Lemma lstrip_head s c s' : lstrip s = c :: s' -> isspace c = false.
Proof.
  induction s as [|a s IH]; simpl; [discriminate |].
  destruct (isspace a) eqn:Ha; [exact IH |].
  intros [= <- _]. exact Ha.
Qed.

Lemma lstrip_snoc_nonspace t c :
  isspace c = false -> lstrip (t ++ [c]) = lstrip t ++ [c].
Proof.
  intros Hc. induction t as [|a t IH]; simpl.
  - now rewrite Hc.
  - destruct (isspace a); [exact IH | reflexivity].
Qed.

Lemma lstrip_idem s : lstrip (lstrip s) = lstrip s.
Proof.
  induction s as [|a s IH]; simpl; [reflexivity |].
  destruct (isspace a) eqn:Ha; [exact IH | simpl; now rewrite Ha].
Qed.

Lemma rstrip_snoc_nonspace s c :
  isspace c = false -> rstrip (s ++ [c]) = s ++ [c].
Proof.
  intros Hc. unfold rstrip. rewrite rev_app_distr. simpl. rewrite Hc.
  simpl. now rewrite rev_involutive.
Qed.

Lemma rstrip_snoc_space s c :
  isspace c = true -> rstrip (s ++ [c]) = rstrip s.
Proof.
  intros Hc. unfold rstrip. rewrite rev_app_distr. simpl. now rewrite Hc.
Qed.

Lemma rstrip_cons_nonspace c s :
  isspace c = false -> rstrip (c :: s) = c :: rstrip s.
Proof.
  intros Hc. unfold rstrip. simpl. rewrite lstrip_snoc_nonspace by exact Hc.
  now rewrite rev_app_distr.
Qed.

Lemma rstrip_last s x : last (rstrip s) = Some x -> isspace x = false.
Proof.
  unfold rstrip.
  destruct (lstrip (rev s)) as [|a r] eqn:E; simpl; [discriminate |].
  rewrite last_snoc. intros [= <-]. exact (lstrip_head _ _ _ E).
Qed.

(** A trimmed line that is not empty starts and ends with a character
    that is not whitespace. *)
Lemma strip_head l c s : strip l = c :: s -> isspace c = false.
Proof.
  unfold strip. destruct (lstrip l) as [|a t] eqn:E; [discriminate |].
  pose proof (lstrip_head _ _ _ E) as Ha.
  rewrite rstrip_cons_nonspace by exact Ha. now intros [= <- _].
Qed.

Lemma strip_last l x : last (strip l) = Some x -> isspace x = false.
Proof. apply rstrip_last. Qed.

Lemma lstrip_fixed c s : isspace c = false -> lstrip (c :: s) = c :: s.
Proof. intros H. cbn [lstrip]. now rewrite H. Qed.

Lemma strip_idem l : strip (strip l) = strip l.
Proof.
  destruct (strip l) as [|c s] eqn:E; [reflexivity |].
  unfold strip at 1. rewrite lstrip_fixed by exact (strip_head _ _ _ E).
  rewrite <- E. destruct (last (strip l)) as [x|] eqn:El.
  - apply last_Some in El as [y Hy]. rewrite Hy.
    apply rstrip_snoc_nonspace. apply (strip_last l).
    rewrite Hy. apply last_snoc.
  - apply last_None in El. now rewrite El.
Qed.

Lemma tokens_lstrip s : tokens (lstrip s) = tokens s.
Proof.
  induction s as [|a s IH]; [reflexivity |].
  simpl lstrip. destruct (isspace a) eqn:Ha; [| reflexivity].
  rewrite IH. simpl. now rewrite Ha.
Qed.

Lemma tokens_snoc_space t c : isspace c = true -> tokens (t ++ [c]) = tokens t.
Proof.
  intros Hc. induction t as [|a t IH]; simpl.
  - now rewrite Hc.
  - destruct (isspace a); [exact IH |].
    destruct t as [|b t]; simpl app.
    + simpl. now rewrite Hc.
    + simpl app in IH |- *. now rewrite IH.
Qed.

Lemma tokens_rstrip s : tokens (rstrip s) = tokens s.
Proof.
  induction s as [|c s IH] using rev_ind; [reflexivity |].
  destruct (isspace c) eqn:Hc.
  - rewrite rstrip_snoc_space, tokens_snoc_space by exact Hc. exact IH.
  - now rewrite rstrip_snoc_nonspace.
Qed.

Lemma tokens_strip s : tokens (strip s) = tokens s.
Proof. unfold strip. now rewrite tokens_rstrip, tokens_lstrip. Qed.

(** The columns of the tab-converted trimmed line are the tokens of
    the line. The induction goes through any text that ends with a
    character that is not whitespace, in both states of the
    replacement. *)
Lemma ends_clean_tail c c' s : ends_clean (c :: c' :: s) -> ends_clean (c' :: s).
Proof. unfold ends_clean. now rewrite last_cons_cons. Qed.

Lemma tokens_cons_cons c c' s :
  tokens (c :: c' :: s) =
  if isspace c then tokens (c' :: s)
  else if isspace c' then [c] :: tokens (c' :: s)
       else match tokens (c' :: s) with
            | t :: ts => (c :: t) :: ts
            | [] => [[c]]
            end.
Proof. reflexivity. Qed.

Lemma split_sub_tokens_aux s :
  ends_clean s ->
  split TAB (re_sub_spaces_from true [TAB] s) = tokens s
  /\ (forall c s', s = c :: s' -> isspace c = false ->
      split TAB (re_sub_spaces_from false [TAB] s) = tokens s).
Proof.
  induction s as [|c s IH]; intros Hend.
  - destruct Hend as (x & Hx & _). discriminate Hx.
  - assert (Hcommon : isspace c = false ->
                      split TAB (c :: re_sub_spaces_from false [TAB] s)
                      = tokens (c :: s)).
    { intros Hc. cbn [split]. rewrite (isspace_not_tab _ Hc).
      destruct s as [|c' s'].
      - simpl. now rewrite Hc.
      - specialize (IH (ends_clean_tail _ _ _ Hend)) as [IHt IHf].
        rewrite tokens_cons_cons, Hc.
        destruct (isspace c') eqn:Hc'.
        + cbn [re_sub_spaces_from] in IHt |- *. rewrite Hc' in IHt |- *.
          cbn [app] in IHt |- *. cbn [split].
          change (TAB =? TAB)%N with true. cbn iota.
          now rewrite IHt.
        + now rewrite (IHf c' s' eq_refl Hc'). }
    split.
    + cbn [re_sub_spaces_from]. destruct (isspace c) eqn:Hc.
      * cbn [app]. destruct s as [|c' s'].
        -- destruct Hend as (x & Hx & Hsp). simpl in Hx.
           injection Hx as <-. congruence.
        -- specialize (IH (ends_clean_tail _ _ _ Hend)) as [IHt _].
           rewrite IHt. now rewrite (tokens_cons_cons c c' s'), Hc.
      * now apply Hcommon.
    + intros c0 s0 [= <- <-] Hc. cbn [re_sub_spaces_from]. rewrite Hc.
      now apply Hcommon.
Qed.

Lemma strip_ends_clean l : strip l <> [] -> ends_clean (strip l).
Proof.
  intros Hne. destruct (last (strip l)) as [x|] eqn:E.
  - exists x. split; [exact E | exact (strip_last _ _ E)].
  - apply last_None in E. contradiction.
Qed.

Lemma columns_tokens l :
  strip l <> [] -> split TAB (re_sub_spaces [TAB] (strip l)) = tokens l.
Proof.
  intros Hne. rewrite <- (tokens_strip l).
  destruct (strip l) as [|c s] eqn:E; [contradiction |].
  rewrite <- E in *. destruct (split_sub_tokens_aux _ (strip_ends_clean l Hne)) as [_ H].
  apply (H c s E). exact (strip_head _ _ _ E).
Qed.

Lemma tokens_blank l : strip l = [] -> tokens l = [].
Proof. intros H. rewrite <- tokens_strip, H. reflexivity. Qed.

Lemma tokens_nonblank l : strip l <> [] -> tokens l <> [].
Proof.
  intros H. rewrite <- columns_tokens by exact H.
  destruct (re_sub_spaces [TAB] (strip l)) as [|c s]; simpl; [discriminate |].
  destruct (c =? TAB)%N; [discriminate |].
  destruct (split TAB s); discriminate.
Qed.

Lemma split_nonempty sep s : split sep s <> [].
Proof.
  destruct s as [|c s]; cbn [split]; [discriminate |].
  destruct (c =? sep)%N; [discriminate |].
  destruct (split sep s); discriminate.
Qed.

Lemma join_cons sep p ps :
  ps <> [] -> join sep (p :: ps) = p ++ sep ++ join sep ps.
Proof. destruct ps; [contradiction | reflexivity]. Qed.

Lemma join_split sep s : join [sep] (split sep s) = s.
Proof.
  induction s as [|c s IH]; [reflexivity |].
  cbn [split]. destruct (N.eqb_spec c sep) as [->|Hne].
  - rewrite join_cons by apply split_nonempty. now rewrite IH.
  - pose proof (split_nonempty sep s) as Hs.
    destruct (split sep s) as [|f fs]; [contradiction |].
    destruct fs as [|g fs].
    + cbn [join] in IH |- *. now rewrite IH.
    + rewrite join_cons in IH |- * by discriminate.
      now rewrite <- IH.
Qed.

(** The tab-converted trimmed line is the tokens of the line with one
    tab between two of them. *)
Lemma sub_join_tokens l :
  strip l <> [] -> re_sub_spaces [TAB] (strip l) = join [TAB] (tokens l).
Proof.
  intros H. rewrite <- columns_tokens by exact H. now rewrite join_split.
Qed.

(** *** Lines *)

Lemma lines_from_row b cur rest :
  one_line b ->
  lines_from cur (b ++ NL :: rest) = (rev cur ++ b ++ [NL]) :: lines_from [] rest.
Proof.
  intros Hb. revert cur. induction Hb as [|c b [Hnl Hcr] _ IH]; intros cur.
  - reflexivity.
  - cbn [app lines_from].
    apply N.eqb_neq in Hnl, Hcr. rewrite Hnl, Hcr, IH.
    cbn [rev]. now rewrite <- app_assoc.
Qed.

(** Rows that were written one after the other, each ended by a
    newline and with none inside, are read back as these rows. *)
Lemma lines_of_rows bs :
  Forall one_line bs ->
  lines_of (concat (map (fun b => b ++ [NL]) bs)) = map (fun b => b ++ [NL]) bs.
Proof.
  unfold lines_of. induction 1 as [|b bs Hb _ IH]; [reflexivity |].
  cbn [map concat]. rewrite <- app_assoc. cbn [app].
  rewrite lines_from_row by exact Hb. now rewrite IH.
Qed.

Lemma one_line_nonspace c : isspace c = false -> c <> NL /\ c <> CR.
Proof. split; intros ->; discriminate. Qed.

Lemma re_sub_one_line r s : one_line (re_sub_spaces_from r [TAB] s).
Proof.
  revert r. induction s as [|c s IH]; intros r; [constructor |].
  cbn [re_sub_spaces_from]. destruct (isspace c) eqn:Hc.
  - destruct r; cbn [app]; [apply IH |].
    constructor; [split; discriminate | apply IH].
  - constructor; [now apply one_line_nonspace | apply IH].
Qed.

Lemma lstrip_Forall (P : N -> Prop) s : Forall P s -> Forall P (lstrip s).
Proof.
  induction 1 as [|c s Hc Hs IH]; [constructor |].
  cbn [lstrip]. destruct (isspace c); [exact IH | now constructor].
Qed.

Lemma strip_Forall (P : N -> Prop) s : Forall P s -> Forall P (strip s).
Proof.
  intros H. unfold strip, rstrip.
  apply Forall_rev, lstrip_Forall, Forall_rev, lstrip_Forall, H.
Qed.

Lemma split_Forall (P : N -> Prop) sep s :
  Forall P s -> Forall (Forall P) (split sep s).
Proof.
  induction 1 as [|c s Hc Hs IH]; [repeat constructor |].
  cbn [split]. destruct (c =? sep)%N; [now repeat constructor |].
  destruct (split sep s) as [|f fs]; [repeat constructor; exact Hc |].
  inversion IH; subst. now repeat constructor.
Qed.

Lemma lines_from_is_line cur s :
  one_line (rev cur) -> Forall is_line (lines_from cur s).
Proof.
  revert cur. induction s as [|c s IH]; intros cur Hcur.
  - cbn [lines_from]. destruct cur as [|a cur]; [constructor |].
    repeat constructor. exists (rev (a :: cur)). split; [exact Hcur |].
    right. split; [reflexivity |]. cbn [rev]. now destruct (rev cur).
  - assert (Hend : is_line (rev (NL :: cur))).
    { exists (rev cur). split; [exact Hcur | now left]. }
    assert (Hnil : one_line (rev [])) by constructor.
    cbn [lines_from]. destruct (N.eqb_spec c NL) as [->|Hnl].
    { constructor; [exact Hend | now apply IH]. }
    destruct (N.eqb_spec c CR) as [->|Hcr].
    { destruct s as [|c' s']; [now repeat constructor |].
      destruct (c' =? NL)%N eqn:E.
      - constructor; [exact Hend |]. specialize (IH [] Hnil).
        cbn [lines_from] in IH. rewrite E in IH. now inversion IH.
      - constructor; [exact Hend | now apply IH]. }
    apply IH. cbn [rev]. apply Forall_app. split; [exact Hcur |].
    now repeat constructor.
Qed.

Lemma lines_of_is_line content : Forall is_line (lines_of content).
Proof. apply lines_from_is_line. constructor. Qed.

Lemma lstrip_app b u :
  lstrip (b ++ u) = match lstrip b with [] => lstrip u | r => r ++ u end.
Proof.
  induction b as [|c b IH]; cbn [app lstrip]; [now destruct (lstrip u) |].
  destruct (isspace c); [exact IH | reflexivity].
Qed.

Lemma strip_newline b : strip (b ++ [NL]) = strip b.
Proof.
  unfold strip. rewrite lstrip_app.
  destruct (lstrip b) as [|c r]; [reflexivity |].
  change (c :: r ++ [NL]) with ((c :: r) ++ [NL]).
  now rewrite rstrip_snoc_space.
Qed.

(** The trimmed text of a line has no line terminator in it. *)
Lemma strip_one_line l : is_line l -> one_line (strip l).
Proof.
  intros (b & Hb & [-> | [-> _]]).
  - rewrite strip_newline. now apply strip_Forall.
  - now apply strip_Forall.
Qed.

(** *** Dictionaries *)

Lemma dict_get_set d k v k' :
  dict_get (dict_set d k v) k' = if decide (k = k') then Some v else dict_get d k'.
Proof.
  induction d as [|[k0 v0] d IH]; cbn [dict_set dict_get].
  - reflexivity.
  - destruct (decide (k0 = k)) as [->|Hne]; cbn [dict_get].
    + now destruct (decide (k = k')).
    + rewrite IH. destruct (decide (k0 = k')) as [->|]; [| reflexivity].
      destruct (decide (k = k')); [congruence | reflexivity].
Qed.

Lemma dict_set_nonempty d k v : dict_set d k v <> [].
Proof.
  destruct d as [|[k0 v0] d]; cbn; [discriminate |].
  destruct (decide (k0 = k)); discriminate.
Qed.

End Strings.

(** ** The world operations *)

Section World.

Lemma bind_ok {A B} (m : M A) (k : A -> M B) w a w' :
  m w = (Ok a, w') -> (m ≫= k) w = k a w'.
Proof. unfold mbind, M_bind. now intros ->. Qed.

Lemma bind_raise {A B} (m : M A) (k : A -> M B) w e w' :
  m w = (Raise e, w') -> (m ≫= k) w = (Raise e, w').
Proof. unfold mbind, M_bind. now intros ->. Qed.

Lemma write_regular f data w content :
  files w !! name f = Some (Regular content) ->
  write f data w =
  (Ok tt, World (<[name f := Regular (content ++ data)]> (files w))
                (stdout w) (opens w)).
Proof. unfold write. now intros ->. Qed.

Lemma open_read_regular path w content :
  files w !! path = Some (Regular content) ->
  open path R w =
  (Ok (File path R), World (files w) (stdout w) (opens w ++ [(path, R)])).
Proof. unfold open. cbn [files]. now intros ->. Qed.

Lemma open_read_missing path w :
  files w !! path = None ->
  open path R w =
  (Raise (FileNotFoundError path),
   World (files w) (stdout w) (opens w ++ [(path, R)])).
Proof. unfold open. cbn [files]. now intros ->. Qed.

Lemma open_write_creatable path w :
  creatable w path ->
  open path W w =
  (Ok (File path W),
   World (<[path := Regular []]> (files w)) (stdout w) (opens w ++ [(path, W)])).
Proof.
  unfold open, creatable. cbn [files stdout opens]. intros H.
  destruct (files w !! path) as [[c|e]|] eqn:E; try reflexivity.
  now destruct (H e).
Qed.

Lemma readlines_regular f w content :
  files w !! name f = Some (Regular content) ->
  readlines f w = (Ok (Py.lines_of content), w).
Proof. unfold readlines. now intros ->. Qed.

Lemma print_run msg w :
  print msg w = (Ok tt, World (files w) (stdout w ++ [msg]) (opens w)).
Proof. reflexivity. Qed.

(** Two files written in turn: the later write to one file replaces
    the earlier one and leaves the other file as it is. *)
Lemma files_write_first (fs : gmap (list N) node) m e x x0 y :
  m <> e ->
  <[m := x]> (<[e := y]> (<[m := x0]> fs)) = <[e := y]> (<[m := x]> fs).
Proof.
  intros Hne. apply map_eq. intros p. rewrite !lookup_insert.
  repeat case_decide; congruence.
Qed.

Lemma files_write_second (fs : gmap (list N) node) e y y0 :
  <[e := y]> (<[e := y0]> fs) = <[e := y]> fs.
Proof. apply insert_insert_eq. Qed.

End World.

(** ** Stage A: what a run does to the world *)

Section FormatRun.
Import Py FormatRM Rows.

Lemma process_line_run m e line fs cm ce so op :
  m <> e ->
  process_line (File m W) (File e W) line
    (World (<[e := Regular ce]> (<[m := Regular cm]> fs)) so op)
  = (Ok tt,
     World (<[e := Regular (ce ++ default [] (extra_row line))]>
              (<[m := Regular (cm ++ (if nonblank line then main_row line else []))]> fs))
           (so ++ option_list (warning line)) op).
Proof.
  intros Hne. unfold process_line, extra_row, warning, main_row, nonblank.
  destruct (strip line) as [|c s] eqn:E; cbn [truthy negb andb].
  - cbn [default option_list]. now rewrite !app_nil_r.
  - rewrite <- E. unfold mbind, M_bind.
    erewrite write_regular; cycle 1.
    { cbn [files name]. rewrite lookup_insert_ne by congruence.
      apply lookup_insert_eq. }
    cbn [files stdout opens name]. rewrite files_write_first by exact Hne.
    destruct (11 <=? length (split TAB (re_sub_spaces [TAB] (strip line)))) eqn:E11;
      cbn [negb default option_list].
    + erewrite write_regular; cycle 1.
      { cbn [files name]. apply lookup_insert_eq. }
      cbn [files stdout opens name]. rewrite files_write_second.
      now rewrite app_nil_r.
    + unfold print. cbn [files stdout opens]. now rewrite app_nil_r.
Qed.

Lemma format_loop m e lines fs cm ce so op :
  m <> e ->
  for_ lines (process_line (File m W) (File e W))
    (World (<[e := Regular ce]> (<[m := Regular cm]> fs)) so op)
  = (Ok tt,
     World (<[e := Regular (ce ++ concat (extra_rows lines))]>
              (<[m := Regular (cm ++ concat (main_rows lines))]> fs))
           (so ++ warnings lines) op).
Proof.
  intros Hne. revert cm ce so.
  induction lines as [|line lines IH]; intros cm ce so.
  - cbn. now rewrite !app_nil_r.
  - cbn [for_]. erewrite bind_ok by (now apply process_line_run).
    rewrite IH. unfold main_rows, extra_rows, warnings.
    rewrite <- !app_assoc. cbn [List.filter].
    change (omap ?f (line :: lines))
      with (match f line with Some y => y :: omap f lines | None => omap f lines end).
    destruct (extra_row line), (nonblank line), (warning line); reflexivity.
Qed.

Lemma creatable_other w path other node0 so op :
  creatable w path -> other <> path ->
  creatable (World (<[other := node0]> (files w)) so op) path.
Proof.
  unfold creatable. cbn [files]. intros H Hne e.
  rewrite lookup_insert_ne by exact Hne. apply H.
Qed.

(** A run on an input file that exists, with two different output
    paths that can be opened. *)
Lemma format_run w input main extra content :
  files w !! input = Some (Regular content) ->
  creatable w main -> creatable w extra -> main <> extra ->
  let data_lines := drop 3 (lines_of content) in
  format_repeatmasker_output input main extra w =
  (Ok tt,
   World (<[extra := Regular (concat (extra_rows data_lines))]>
            (<[main := Regular ((join [TAB] header ++ [NL])
                                ++ concat (main_rows data_lines))]> (files w)))
         (stdout w ++ warnings data_lines
          ++ [lit "Successfully processed '" ++ input ++ lit "'.";
              lit "  - Main TSV saved to: '" ++ main ++ lit "'";
              lit "  - Extra columns saved to: '" ++ extra ++ lit "'"])
         (opens w ++ [(input, R); (main, W); (extra, W)])).
Proof.
  intros Hin Hmain Hextra Hne data_lines.
  unfold format_repeatmasker_output, try_except.
  erewrite bind_ok by (apply (open_read_regular _ _ content); exact Hin).
  erewrite bind_ok by (apply (readlines_regular _ _ content); exact Hin).
  erewrite bind_ok by (apply open_write_creatable; exact Hmain).
  cbn [files stdout opens].
  erewrite bind_ok; cycle 1.
  { apply open_write_creatable. now apply creatable_other. }
  cbn [files stdout opens].
  erewrite bind_ok; cycle 1.
  { apply write_regular. cbn [files name].
    rewrite lookup_insert_ne by congruence. apply lookup_insert_eq. }
  cbn [files stdout opens name app].
  rewrite files_write_first by exact Hne.
  erewrite bind_ok by (now apply format_loop).
  unfold mbind, M_bind, print. cbn [files stdout opens app].
  rewrite <- !app_assoc. reflexivity.
Qed.

End FormatRun.

(** ** Stage A: the claims *)

Section FormatClaims.
Import Py FormatRM Rows.

Lemma header_one_line : one_line (join [TAB] header).
Proof. apply (bool_decide_unpack _). vm_compute. exact I. Qed.

Lemma main_rows_one_line lines :
  Forall one_line (map (fun l => re_sub_spaces [TAB] (strip l)) lines).
Proof. apply Forall_map, Forall_forall. intros l _. apply re_sub_one_line. Qed.

(** C1. For every input file, the main output of [format_repeatmasker_output]
    is one 16-column tab-separated header line followed by one data line
    for each line that is left after the first three lines are removed
    and is not blank after trimming, in input order; a data line is the
    trimmed input line with every maximal run of whitespace replaced by
    one tab (equally: the tokens of the line joined by single tabs). *)
Theorem C1_main_output w input main extra content :
  files w !! input = Some (Regular content) ->
  creatable w main -> creatable w extra -> main <> extra ->
  let header_line := join [TAB] header ++ [NL] in
  let data := List.filter nonblank (drop 3 (lines_of content)) in
  let rows := map (fun l => re_sub_spaces [TAB] (strip l) ++ [NL]) data in
  exists w',
    format_repeatmasker_output input main extra w = (Ok tt, w')
    /\ text_of w' main = Some (concat (header_line :: rows))
    /\ lines_of (concat (header_line :: rows)) = header_line :: rows
    /\ split TAB (join [TAB] header) = header /\ length header = 16
    /\ Forall (fun l => re_sub_spaces [TAB] (strip l) = join [TAB] (tokens l)) data.
Proof.
  intros Hin Hmain Hextra Hne header_line data rows.
  eexists. split; [now apply (format_run w input main extra content) |].
  split; [| split; [| split; [| split]]].
  - unfold text_of. cbn [files]. rewrite lookup_insert_ne by congruence.
    now rewrite lookup_insert_eq.
  - pose proof (lines_of_rows (join [TAB] header
                               :: map (fun l => re_sub_spaces [TAB] (strip l)) data)) as H.
    cbn [map] in H. rewrite map_map in H. apply H.
    constructor; [exact header_one_line | apply main_rows_one_line].
  - reflexivity.
  - reflexivity.
  - apply Forall_forall. intros l Hl. apply sub_join_tokens.
    apply list_elem_of_In, filter_In in Hl as [_ Hl].
    unfold nonblank in Hl. now destruct (strip l).
Qed.

Lemma C1_main_output_witness :
  exists w',
    format_repeatmasker_output (lit "rm.out") (lit "main.tsv") (lit "extra.tsv")
      Sample.world_A = (Ok tt, w')
    /\ text_of w' (lit "main.tsv")
       = Some ((join [TAB] header ++ [NL])
               ++ (join [TAB] (tokens Sample.record) ++ [NL])
               ++ lit "7" ++ [TAB] ++ lit "8" ++ [TAB] ++ lit "9" ++ [NL]).
Proof.
  destruct (C1_main_output Sample.world_A (lit "rm.out") (lit "main.tsv")
              (lit "extra.tsv") Sample.report) as (w' & Hrun & Htext & _).
  - reflexivity.
  - intros e. vm_compute. discriminate.
  - intros e. vm_compute. discriminate.
  - vm_compute. discriminate.
  - exists w'. split; [exact Hrun |]. rewrite Htext. vm_compute. reflexivity.
Defined.

Lemma nonblank_strip l : nonblank l = true <-> strip l <> [].
Proof. unfold nonblank. destruct (strip l); cbn; split; congruence. Qed.

Lemma tokens_nonspace s : Forall (Forall (fun c => isspace c = false)) (tokens s).
Proof.
  induction s as [|c s IH]; [constructor |].
  destruct s as [|c' s'].
  - cbn. destruct (isspace c) eqn:Hc; now repeat constructor.
  - rewrite tokens_cons_cons.
    destruct (isspace c) eqn:Hc; [exact IH |].
    destruct (isspace c') eqn:Hc'; [now repeat constructor |].
    destruct (tokens (c' :: s')) as [|t ts]; [now repeat constructor |].
    inversion IH; subst. now repeat constructor.
Qed.

Lemma token_one_line s n : one_line (nth n (tokens s) []).
Proof.
  destruct (nth_in_or_default n (tokens s) []) as [Hin | ->]; [| constructor].
  pose proof (tokens_nonspace s) as H.
  rewrite Forall_forall in H. apply list_elem_of_In, H in Hin.
  eapply Forall_impl; [exact Hin |]. intros c. apply one_line_nonspace.
Qed.

Lemma extra_rows_tokens lines :
  extra_rows lines =
  map (fun l => nth 9 (tokens l) [] ++ [TAB] ++ nth 10 (tokens l) [] ++ [NL])
      (List.filter (fun l => 11 <=? length (tokens l))
                   (List.filter nonblank lines)).
Proof.
  unfold extra_rows. induction lines as [|l lines IH]; [reflexivity |].
  change (omap ?f (l :: lines))
    with (match f l with Some y => y :: omap f lines | None => omap f lines end).
  rewrite IH. unfold extra_row. cbn [List.filter].
  destruct (nonblank l) eqn:Hnb; cbn [andb]; [| reflexivity].
  rewrite columns_tokens by (now apply nonblank_strip).
  cbn [List.filter]. now destruct (11 <=? length (tokens l)).
Qed.

Lemma warnings_tokens lines :
  warnings lines =
  map (fun l => lit "Warning: Skipped a line with fewer than 11 columns: '"
                ++ strip l ++ lit "'")
      (List.filter (fun l => length (tokens l) <? 11)
                   (List.filter nonblank lines)).
Proof.
  unfold warnings. induction lines as [|l lines IH]; [reflexivity |].
  change (omap ?f (l :: lines))
    with (match f l with Some y => y :: omap f lines | None => omap f lines end).
  rewrite IH. unfold warning. cbn [List.filter].
  destruct (nonblank l) eqn:Hnb; cbn [andb]; [| reflexivity].
  rewrite columns_tokens by (now apply nonblank_strip).
  cbn [List.filter].
  destruct (Nat.leb_spec 11 (length (tokens l))) as [H|H];
    destruct (Nat.ltb_spec (length (tokens l)) 11) as [H'|H'];
    try lia; reflexivity.
Qed.

(** C2. The side output has one line for each data line (a line left
    after the first three are removed, not blank after trimming) that
    has at least 11 whitespace-delimited tokens: token 9, a tab, token
    10. These lines come in the order of the data lines, which is the
    order of the rows of the main output. A data line with fewer than
    11 tokens gives a warning and no side line, and is a row of the
    main output all the same. *)
Theorem C2_side_output w input main extra content :
  files w !! input = Some (Regular content) ->
  creatable w main -> creatable w extra -> main <> extra ->
  let data := List.filter nonblank (drop 3 (lines_of content)) in
  let side_rows :=
    map (fun l => nth 9 (tokens l) [] ++ [TAB] ++ nth 10 (tokens l) [] ++ [NL])
        (List.filter (fun l => 11 <=? length (tokens l)) data) in
  exists w',
    format_repeatmasker_output input main extra w = (Ok tt, w')
    /\ text_of w' extra = Some (concat side_rows)
    /\ lines_of (concat side_rows) = side_rows
    /\ text_of w' main
       = Some ((join [TAB] header ++ [NL])
               ++ concat (map (fun l => join [TAB] (tokens l) ++ [NL]) data))
    /\ stdout w'
       = stdout w
         ++ map (fun l => lit "Warning: Skipped a line with fewer than 11 columns: '"
                          ++ strip l ++ lit "'")
                (List.filter (fun l => length (tokens l) <? 11) data)
         ++ [lit "Successfully processed '" ++ input ++ lit "'.";
             lit "  - Main TSV saved to: '" ++ main ++ lit "'";
             lit "  - Extra columns saved to: '" ++ extra ++ lit "'"].
Proof.
  intros Hin Hmain Hextra Hne data side_rows.
  eexists. split; [now apply (format_run w input main extra content) |].
  split; [| split; [| split]].
  - unfold text_of. cbn [files]. rewrite lookup_insert_eq.
    now rewrite extra_rows_tokens.
  - assert (Heq : side_rows =
                  map (fun b => b ++ [NL])
                      (map (fun l => nth 9 (tokens l) [] ++ [TAB]
                                     ++ nth 10 (tokens l) [])
                           (List.filter (fun l => 11 <=? length (tokens l)) data))).
    { unfold side_rows. rewrite map_map. apply map_ext.
      intros l. now rewrite <- !app_assoc. }
    rewrite Heq. apply lines_of_rows.
    apply Forall_map, Forall_forall. intros l _. unfold one_line.
    apply Forall_app. split; [apply token_one_line |].
    constructor; [split; discriminate | apply token_one_line].
  - unfold text_of. cbn [files]. rewrite lookup_insert_ne by congruence.
    rewrite lookup_insert_eq. do 3 f_equal. unfold main_rows, main_row.
    apply map_ext_in. intros l Hl. f_equal. apply sub_join_tokens.
    apply filter_In in Hl as [_ Hl]. unfold nonblank in Hl.
    now destruct (strip l).
  - cbn [stdout]. now rewrite warnings_tokens.
Qed.

Lemma C2_side_output_witness :
  exists w',
    format_repeatmasker_output (lit "rm.out") (lit "main.tsv") (lit "extra.tsv")
      Sample.world_A = (Ok tt, w')
    /\ text_of w' (lit "extra.tsv")
       = Some (lit "rnd-1_family" ++ [TAB] ++ lit "LINE/L1" ++ [NL])
    /\ stdout w'
       = [lit "Warning: Skipped a line with fewer than 11 columns: '7 8" ++ [TAB] ++ lit "9'";
          lit "Successfully processed 'rm.out'.";
          lit "  - Main TSV saved to: 'main.tsv'";
          lit "  - Extra columns saved to: 'extra.tsv'"].
Proof.
  destruct (C2_side_output Sample.world_A (lit "rm.out") (lit "main.tsv")
              (lit "extra.tsv") Sample.report)
    as (w' & Hrun & Htext & _ & _ & Hout).
  - reflexivity.
  - intros e. vm_compute. discriminate.
  - intros e. vm_compute. discriminate.
  - vm_compute. discriminate.
  - exists w'. split; [exact Hrun |]. rewrite Htext, Hout.
    split; vm_compute; reflexivity.
Defined.

(** *** Running the reformat on its own output *)

Lemma tokens_re_sub r s : tokens (re_sub_spaces_from r [TAB] s) = tokens s.
Proof.
  revert r. induction s as [|c s IH]; intros r; [reflexivity |].
  cbn [re_sub_spaces_from]. destruct (isspace c) eqn:Hc.
  - transitivity (tokens (re_sub_spaces_from true [TAB] s)).
    + now destruct r.
    + rewrite IH. cbn [tokens]. now rewrite Hc.
  - specialize (IH false). destruct s as [|c' s']; [reflexivity |].
    cbn [re_sub_spaces_from] in IH |- *.
    destruct (isspace c') eqn:Hc'.
    + cbn [app] in IH |- *. rewrite !tokens_cons_cons, Hc, Hc'.
      change (isspace TAB) with true. cbn iota. now rewrite IH.
    + rewrite !tokens_cons_cons, Hc, Hc'. now rewrite IH.
Qed.

Lemma tokens_main_row l : tokens (main_row l) = tokens l.
Proof.
  unfold main_row. rewrite tokens_snoc_space by reflexivity.
  unfold re_sub_spaces. now rewrite tokens_re_sub, tokens_strip.
Qed.

Lemma nonblank_tokens l : nonblank l = true <-> tokens l <> [].
Proof.
  rewrite nonblank_strip. split.
  - apply tokens_nonblank.
  - intros H E. now apply H, tokens_blank.
Qed.

Lemma nonblank_main_row l : nonblank l = true -> nonblank (main_row l) = true.
Proof. rewrite !nonblank_tokens. now rewrite tokens_main_row. Qed.

Lemma filter_all {A} (f : A -> bool) l :
  Forall (fun x => f x = true) l -> List.filter f l = l.
Proof.
  induction 1 as [|x l Hx _ IH]; [reflexivity |].
  cbn [List.filter]. now rewrite Hx, IH.
Qed.

Lemma filter_map_main_row (f : list str -> bool) L :
  List.filter (fun l => f (tokens l)) (map main_row L)
  = map main_row (List.filter (fun l => f (tokens l)) L).
Proof.
  induction L as [|l L IH]; [reflexivity |].
  cbn [map List.filter]. rewrite tokens_main_row, IH.
  now destruct (f (tokens l)).
Qed.

Lemma extra_rows_of_main_rows data :
  Forall (fun l => nonblank l = true) data ->
  extra_rows (map main_row data) =
  map (fun l => nth 9 (tokens l) [] ++ [TAB] ++ nth 10 (tokens l) [] ++ [NL])
      (List.filter (fun l => 11 <=? length (tokens l)) data).
Proof.
  intros Hdata. rewrite extra_rows_tokens.
  rewrite (filter_all nonblank).
  - rewrite (filter_map_main_row (fun t => 11 <=? length t)), map_map.
    apply map_ext. intros l. now rewrite tokens_main_row.
  - apply Forall_map. eapply Forall_impl; [exact Hdata |].
    intros l. cbn. apply nonblank_main_row.
Qed.

Lemma filter_Forall {A} (f : A -> bool) l :
  Forall (fun x => f x = true) (List.filter f l).
Proof. apply Forall_forall. intros x Hx. now apply list_elem_of_In, filter_In in Hx. Qed.

(** C3, as the code has it. A second run that takes the main output of
    a first run without its header line removes the first three lines
    of this input again. Its side output is the side output of the
    first run without the rows of the first three data lines: where the
    first run has the side rows of its data lines, the second run has
    those of the data lines from the fourth on. *)
Theorem C3_rerun_side_output
    w1 input1 main1 extra1 content1 w1' w2 input2 main2 extra2 content2 :
  files w1 !! input1 = Some (Regular content1) ->
  creatable w1 main1 -> creatable w1 extra1 -> main1 <> extra1 ->
  format_repeatmasker_output input1 main1 extra1 w1 = (Ok tt, w1') ->
  text_of w1' main1 = Some ((join [TAB] header ++ [NL]) ++ content2) ->
  files w2 !! input2 = Some (Regular content2) ->
  creatable w2 main2 -> creatable w2 extra2 -> main2 <> extra2 ->
  let data := List.filter nonblank (drop 3 (lines_of content1)) in
  let side := fun ls : list str =>
    concat (map (fun l => nth 9 (tokens l) [] ++ [TAB] ++ nth 10 (tokens l) [] ++ [NL])
                (List.filter (fun l => 11 <=? length (tokens l)) ls)) in
  exists w2',
    format_repeatmasker_output input2 main2 extra2 w2 = (Ok tt, w2')
    /\ text_of w1' extra1 = Some (side data)
    /\ text_of w2' extra2 = Some (side (drop 3 data)).
Proof.
  intros Hin1 Hm1 He1 Hne1 Hrun1 Hmain1 Hin2 Hm2 He2 Hne2 data side.
  rewrite (format_run w1 input1 main1 extra1 content1) in Hrun1 by assumption.
  apply (f_equal snd) in Hrun1. cbn [snd] in Hrun1. subst w1'.
  assert (Hc2 : content2 = concat (map main_row data)).
  { remember (join [TAB] header ++ [NL]) as hdr eqn:Hhdr.
    unfold text_of in Hmain1. cbn [files] in Hmain1.
    rewrite lookup_insert_ne, lookup_insert_eq in Hmain1 by congruence.
    assert (Heq : hdr ++ concat (main_rows (drop 3 (lines_of content1)))
                  = hdr ++ content2) by congruence.
    apply app_inv_head in Heq. now symmetry. }
  assert (Hlines : lines_of content2 = map main_row data).
  { rewrite Hc2. unfold main_row.
    rewrite <- (map_map (fun l => re_sub_spaces [TAB] (strip l))
                        (fun b => b ++ [NL])).
    apply lines_of_rows, main_rows_one_line. }
  eexists. split; [now apply (format_run w2 input2 main2 extra2 content2) |].
  split.
  - unfold text_of. cbn [files]. rewrite lookup_insert_eq.
    now rewrite extra_rows_tokens.
  - unfold text_of. cbn [files]. rewrite lookup_insert_eq.
    rewrite Hlines, skipn_map, extra_rows_of_main_rows; [reflexivity |].
    apply Forall_drop, filter_Forall.
Qed.

Lemma C3_rerun_side_output_witness :
  exists w2',
    format_repeatmasker_output (lit "main_data.tsv") (lit "main2.tsv")
      (lit "extra2.tsv") Sample.world_A2 = (Ok tt, w2')
    /\ text_of w2' (lit "extra2.tsv") = Some [].
Proof.
  destruct (C3_rerun_side_output
              Sample.world_A (lit "rm.out") (lit "main.tsv") (lit "extra.tsv")
              Sample.report
              (snd (format_repeatmasker_output (lit "rm.out") (lit "main.tsv")
                      (lit "extra.tsv") Sample.world_A))
              Sample.world_A2 (lit "main_data.tsv") (lit "main2.tsv")
              (lit "extra2.tsv") Sample.main_data)
    as (w2' & Hrun & _ & Hside).
  - reflexivity.
  - intros e. vm_compute. discriminate.
  - intros e. vm_compute. discriminate.
  - vm_compute. discriminate.
  - vm_compute. reflexivity.
  - vm_compute. reflexivity.
  - reflexivity.
  - intros e. vm_compute. discriminate.
  - intros e. vm_compute. discriminate.
  - vm_compute. discriminate.
  - exists w2'. split; [exact Hrun |]. rewrite Hside. vm_compute. reflexivity.
Defined.

(** C3 as the specification has it fails: the first run on
    [Sample.report] writes one side row; the second run, on the main
    output of the first without its header line, writes none, because
    its two lines are among the three it removes. *)
Lemma C3_rerun_counterexample :
  format_repeatmasker_output (lit "rm.out") (lit "main.tsv") (lit "extra.tsv")
    Sample.world_A
  = (Ok tt,
     World {[ lit "rm.out" := Regular Sample.report;
              lit "main.tsv" := Regular ((join [TAB] header ++ [NL]) ++ Sample.main_data);
              lit "extra.tsv" := Regular (lit "rnd-1_family" ++ [TAB] ++ lit "LINE/L1" ++ [NL]) ]}
           [lit "Warning: Skipped a line with fewer than 11 columns: '7 8" ++ [TAB] ++ lit "9'";
            lit "Successfully processed 'rm.out'.";
            lit "  - Main TSV saved to: 'main.tsv'";
            lit "  - Extra columns saved to: 'extra.tsv'"]
           [(lit "rm.out", R); (lit "main.tsv", W); (lit "extra.tsv", W)])
  /\ text_of (snd (format_repeatmasker_output (lit "main_data.tsv") (lit "main2.tsv")
                     (lit "extra2.tsv") Sample.world_A2)) (lit "extra2.tsv")
     = Some []
  /\ text_of (snd (format_repeatmasker_output (lit "main_data.tsv") (lit "main2.tsv")
                     (lit "extra2.tsv") Sample.world_A2)) (lit "extra2.tsv")
     <> text_of (snd (format_repeatmasker_output (lit "rm.out") (lit "main.tsv")
                        (lit "extra.tsv") Sample.world_A)) (lit "extra.tsv").
Proof.
  split; [| split].
  - vm_compute. reflexivity.
  - vm_compute. reflexivity.
  - vm_compute. discriminate.
Qed.

(** *** Failures *)

Lemma open_refused path m w e :
  files w !! path = Some (Unopenable e) ->
  open path m w = (Raise e, World (files w) (stdout w) (opens w ++ [(path, m)])).
Proof. unfold open. cbn [files]. intros ->. now destruct m. Qed.



End FormatClaims.

(** ** Stage B: what a run does to the world *)

Section AnnotateRun.
Import Py AddTEclass Rows.

Lemma read_family_run d line w :
  read_family d line w =
  (Ok (match entry line with
       | Some (motif, family) => dict_set d motif family
       | None => d
       end),
   World (files w)
         (stdout w ++ (if malformed line
                       then [lit "Warning: Skipping malformed line in family list: '"
                             ++ strip line ++ lit "'"]
                       else []))
         (opens w)).
Proof.
  unfold read_family, entry, malformed. destruct (nonblank line) eqn:Hnb.
  - unfold nonblank in Hnb. rewrite Hnb. cbn [negb andb].
    unfold try_except, mbind, M_bind.
    destruct (split TAB (strip (strip line))) as [|a [|b [|c parts]]];
      cbn; destruct w; cbn; rewrite ?app_nil_r; reflexivity.
  - unfold nonblank in Hnb. rewrite Hnb. cbn [negb andb].
    destruct w; cbn. rewrite app_nil_r.
    now destruct (split TAB (strip (strip line))) as [|a [|b [|c parts]]].
Qed.

Lemma read_family_loop lines d w :
  for_with lines d read_family w =
  (Ok (fold_left (fun d line =>
                    match entry line with
                    | Some (motif, family) => dict_set d motif family
                    | None => d
                    end) lines d),
   World (files w) (stdout w ++ lookup_warnings lines) (opens w)).
Proof.
  revert d w. induction lines as [|line lines IH]; intros d w.
  - destruct w. cbn. now rewrite app_nil_r.
  - cbn [for_with]. erewrite bind_ok by apply read_family_run.
    rewrite IH. cbn [files stdout opens fold_left]. f_equal. f_equal.
    rewrite <- app_assoc. f_equal. unfold lookup_warnings.
    cbn [List.filter]. now destruct (malformed line).
Qed.

Lemma annotate_line_run d out dg line fs content so op :
  annotate_line d (File out W) dg line
    (World (<[out := Regular content]> fs) so op)
  = (Ok (tally d dg line),
     World (<[out := Regular (content ++ default [] (gff_row d line))]> fs) so op).
Proof.
  unfold annotate_line, tally, gff_row, qualifies, label, attributes, nonblank.
  destruct dg as [found unknown unknown_motifs motifs].
  destruct (startswith line [HASH]); cbn [negb andb default];
    [now rewrite app_nil_r |].
  destruct (strip line) as [|c s] eqn:E; cbn [truthy negb andb default];
    [now rewrite app_nil_r |].
  rewrite <- E.
  destruct (Nat.ltb_spec (length (split TAB (strip line))) 9) as [H|H];
    destruct (Nat.leb_spec 9 (length (split TAB (strip line)))) as [H'|H'];
    try lia; cbn [default]; [now rewrite app_nil_r |].
  cbn [found_count unknown_count unknown_motifs_found motifs_in_gff].
  destruct (re_search_motif (nth 8 (split TAB (strip line)) [])) as [motif|];
    [destruct (dict_get d motif) as [family|] |];
    unfold mbind, M_bind;
    (erewrite write_regular by (cbn [files name]; apply lookup_insert_eq));
    cbn [files stdout opens name]; rewrite files_write_second; reflexivity.
Qed.

Lemma annotate_loop d out lines dg fs content so op :
  for_with lines dg (annotate_line d (File out W))
    (World (<[out := Regular content]> fs) so op)
  = (Ok (fold_left (tally d) lines dg),
     World (<[out := Regular (content ++ concat (gff_rows d lines))]> fs) so op).
Proof.
  revert dg content. induction lines as [|line lines IH]; intros dg content.
  - cbn. now rewrite app_nil_r.
  - cbn [for_with]. erewrite bind_ok by apply annotate_line_run.
    rewrite IH. cbn [fold_left]. unfold gff_rows.
    change (omap ?f (line :: lines))
      with (match f line with Some y => y :: omap f lines | None => omap f lines end).
    rewrite <- app_assoc. now destruct (gff_row d line).
Qed.

Lemma for_print {A} (f : A -> str) xs w :
  for_ xs (fun x => print (f x)) w =
  (Ok tt, World (files w) (stdout w ++ map f xs) (opens w)).
Proof.
  revert w. induction xs as [|x xs IH]; intros w.
  - destruct w. cbn. now rewrite app_nil_r.
  - cbn [for_]. unfold mbind, M_bind, print at 1.
    rewrite IH. cbn [files stdout opens map]. now rewrite <- app_assoc.
Qed.

Section Run.
Context (repr : str -> str) (list_of_set : gset (list N) -> list str).

Lemma mismatch_analysis_run d dg w :
  mismatch_analysis list_of_set d dg w =
  (Ok tt,
   World (files w)
         (stdout w
          ++ [ [NL] ++ lit "--- Mismatch Analysis ---";
               lit "To fix this, compare the names from the GFF with the names in your family list.";
               [NL] ++ lit "Examples of motifs found in your GFF file:" ]
          ++ map (fun motif => lit "  - '" ++ motif ++ lit "'")
                 (take 5 (list_of_set (motifs_in_gff dg)))
          ++ [ [NL] ++ lit "Examples of motifs from your family list file (the lookup keys):" ]
          ++ map (fun motif => lit "  - '" ++ motif ++ lit "'")
                 (take 5 (dict_keys d))
          ++ [ [NL] ++ lit "Check for subtle differences like parentheses, quotes, or extra characters." ])
         (opens w)).
Proof.
  unfold mismatch_analysis, mbind, M_bind.
  unfold print at 1 2 3. cbn [files stdout opens].
  rewrite for_print. cbn [files stdout opens].
  unfold print at 1. cbn [files stdout opens].
  rewrite for_print. cbn [files stdout opens].
  unfold print. cbn [files stdout opens].
  f_equal. f_equal. rewrite <- !app_assoc. reflexivity.
Qed.

(** A run whose lookup file gives no entry. *)
Lemma add_family_column_empty w gff fam out cf :
  files w !! fam = Some (Regular cf) ->
  lookup_of (lines_of cf) = [] ->
  add_family_column repr list_of_set gff fam out w =
  (Ok tt,
   World (files w)
         (stdout w
          ++ [lit "--- Starting Process ---";
              lit "Reading TE family map from '" ++ fam ++ lit "'..."]
          ++ lookup_warnings (lines_of cf)
          ++ [[NL] ++ lit "Error: The family lookup dictionary is empty. Please check your family list file."])
         (opens w ++ [(fam, R)])).
Proof.
  intros Hfam Hempty. unfold add_family_column.
  erewrite bind_ok by apply print_run. unfold try_except.
  erewrite bind_ok by apply print_run. cbn [files stdout opens].
  erewrite bind_ok by (apply (open_read_regular _ _ cf); exact Hfam).
  cbn [files stdout opens].
  erewrite bind_ok by (apply (readlines_regular _ _ cf); exact Hfam).
  erewrite bind_ok by apply read_family_loop.
  fold (lookup_of (lines_of cf)). rewrite Hempty. cbn [truthy negb].
  unfold print. cbn [files stdout opens]. now rewrite <- !app_assoc.
Qed.

(** A run whose lookup file gives entries, on a GFF file that exists
    and is not the output file. *)
Lemma add_family_column_run w gff fam out cf cg :
  files w !! fam = Some (Regular cf) ->
  files w !! gff = Some (Regular cg) ->
  creatable w out -> out <> gff ->
  lookup_of (lines_of cf) <> [] ->
  let d := lookup_of (lines_of cf) in
  let dg := fold_left (tally d) (lines_of cg) (Diag 0 0 ∅ ∅) in
  add_family_column repr list_of_set gff fam out w =
  (Ok tt,
   World (<[out := Regular (concat (gff_rows d (lines_of cg)))]> (files w))
         (stdout w
          ++ [lit "--- Starting Process ---";
              lit "Reading TE family map from '" ++ fam ++ lit "'..."]
          ++ lookup_warnings (lines_of cf)
          ++ [lit "Successfully mapped " ++ str_of_nat (length d) ++ lit " motifs.";
              lit "Processing '" ++ gff ++ lit "' and writing to '" ++ out ++ lit "'..."]
          ++ report list_of_set d dg out)
         (opens w ++ [(fam, R); (gff, R); (out, W)])).
Proof.
  intros Hfam Hgff Hout Hne Hd d dg. unfold add_family_column.
  erewrite bind_ok by apply print_run. unfold try_except.
  erewrite bind_ok by apply print_run. cbn [files stdout opens].
  erewrite bind_ok by (apply (open_read_regular _ _ cf); exact Hfam).
  cbn [files stdout opens].
  erewrite bind_ok by (apply (readlines_regular _ _ cf); exact Hfam).
  erewrite bind_ok by apply read_family_loop.
  fold (lookup_of (lines_of cf)). fold d.
  assert (Ht : truthy d = true).
  { subst dg d. now destruct (lookup_of (lines_of cf)). }
  rewrite Ht. cbn [negb].
  erewrite bind_ok by apply print_run.
  erewrite bind_ok by apply print_run. cbn [files stdout opens].
  erewrite bind_ok by (apply (open_read_regular _ _ cg); exact Hgff).
  cbn [files stdout opens].
  erewrite bind_ok by (apply open_write_creatable; exact Hout).
  cbn [files stdout opens].
  erewrite bind_ok; cycle 1.
  { apply (readlines_regular _ _ cg). cbn [files name].
    rewrite lookup_insert_ne by exact Hne. exact Hgff. }
  erewrite bind_ok by apply annotate_loop. fold dg. cbn [app].
  unfold mbind, M_bind, print. cbn [files stdout opens].
  unfold report. destruct (0 <? unknown_count dg).
  - rewrite mismatch_analysis_run. cbn [files stdout opens].
    f_equal. f_equal; rewrite <- !app_assoc; reflexivity.
  - cbn. f_equal. f_equal; rewrite <- !app_assoc; reflexivity.
Qed.

End Run.

End AnnotateRun.

(** ** Stage B: the claims *)

Section AnnotateClaims.
Import Py AddTEclass Rows.

Lemma entry_spec l k v :
  entry l = Some (k, v) <-> nonblank l = true /\ split TAB (strip l) = [k; v].
Proof.
  unfold entry. rewrite strip_idem.
  destruct (split TAB (strip l)) as [|a [|b [|c parts]]];
    try (split; [discriminate | intros [_ [=]]]).
  destruct (nonblank l); split.
  - now intros [= <- <-].
  - now intros [_ [= <- <-]].
  - discriminate.
  - now intros [[=] _].
Qed.

Lemma lookup_step_get d l k :
  dict_get (match entry l with
            | Some (motif, family) => dict_set d motif family
            | None => d
            end) k
  = match entry l with
    | Some (motif, family) => if decide (motif = k) then Some family else dict_get d k
    | None => dict_get d k
    end.
Proof. destruct (entry l) as [[m f]|]; [apply dict_get_set | reflexivity]. Qed.

Lemma lookup_of_snoc lines l :
  lookup_of (lines ++ [l]) =
  match entry l with
  | Some (motif, family) => dict_set (lookup_of lines) motif family
  | None => lookup_of lines
  end.
Proof. unfold lookup_of. now rewrite fold_left_app. Qed.

(** The value of a key is the family of the last line of two fields
    whose first field is the key. *)
Lemma lookup_of_last lines k v :
  dict_get (lookup_of lines) k = Some v <->
  exists pre l post,
    lines = pre ++ l :: post
    /\ nonblank l = true /\ split TAB (strip l) = [k; v]
    /\ Forall (fun l' => forall v', ~ (nonblank l' = true
                                      /\ split TAB (strip l') = [k; v'])) post.
Proof.
  revert v. induction lines as [|l0 lines IH] using rev_ind; intros v.
  - split; [discriminate |]. intros (pre & l & post & H & _).
    now destruct pre.
  - rewrite lookup_of_snoc, lookup_step_get. split.
    + intros Hget. destruct (entry l0) as [[m f]|] eqn:E.
      * destruct (decide (m = k)) as [->|Hne].
        -- injection Hget as <-. apply entry_spec in E as [Hnb Hsp].
           exists lines, l0, []. repeat split; auto.
        -- apply IH in Hget as (pre & l & post & -> & Hnb & Hsp & Hpost).
           exists pre, l, (post ++ [l0]). rewrite <- app_assoc.
           repeat split; auto. apply Forall_app. split; [exact Hpost |].
           constructor; [| constructor]. intros v' Hwf.
           apply entry_spec in Hwf. congruence.
      * apply IH in Hget as (pre & l & post & -> & Hnb & Hsp & Hpost).
        exists pre, l, (post ++ [l0]). rewrite <- app_assoc.
        repeat split; auto. apply Forall_app. split; [exact Hpost |].
        constructor; [| constructor]. intros v' Hwf.
        apply entry_spec in Hwf. congruence.
    + intros (pre & l & post & Heq & Hnb & Hsp & Hpost).
      destruct post as [|p post _] using rev_ind.
      * apply app_inj_tail in Heq as [-> ->].
        assert (E : entry l = Some (k, v)) by (now apply entry_spec).
        rewrite E. now destruct (decide (k = k)).
      * change (pre ++ l :: post ++ [p]) with (pre ++ (l :: post) ++ [p]) in Heq.
        rewrite app_assoc in Heq. apply app_inj_tail in Heq as [-> ->].
        apply Forall_app in Hpost as [Hpost Hp]. inversion Hp as [|? ? Hp0 _]; subst.
        assert (Hold : dict_get (lookup_of (pre ++ l :: post)) k = Some v).
        { apply IH. exists pre, l, post. auto. }
        destruct (entry p) as [[m f]|] eqn:E; [| exact Hold].
        destruct (decide (m = k)) as [->|]; [| exact Hold].
        apply entry_spec in E. now destruct (Hp0 f).
Qed.


Lemma malformed_spec l :
  malformed l = nonblank l && negb (length (split TAB (strip l)) =? 2).
Proof. unfold malformed. now rewrite strip_idem. Qed.


(** The lookup file of the samples: the key given twice has the family
    of its last line; the line of three fields gives a warning. *)
Example lookup_sample :
  for_with (lines_of Sample.lookup_text) [] read_family (World ∅ [] [])
  = (Ok [(lit "rnd-1_family", lit "LINE"); (lit "rnd-2_family", lit "DNA")],
     World ∅
           [lit "Warning: Skipping malformed line in family list: 'three"
            ++ [TAB] ++ lit "field" ++ [TAB] ++ lit "line'"]
           []).
Proof. vm_compute. reflexivity. Qed.

Lemma lookup_built lines w d :
  fst (for_with lines [] read_family w) = Ok d -> d = lookup_of lines.
Proof. rewrite read_family_loop. cbn [fst]. now intros [= <-]. Qed.

Lemma gff_rows_split d pre line post :
  gff_rows d (pre ++ line :: post)
  = gff_rows d pre ++ option_list (gff_row d line) ++ gff_rows d post.
Proof.
  unfold gff_rows. rewrite omap_app.
  change (omap ?f (line :: post))
    with (match f line with Some y => y :: omap f post | None => omap f post end).
  now destruct (gff_row d line).
Qed.

Lemma qualifies_spec line :
  qualifies line = true <->
  startswith line [HASH] = false /\ strip line <> []
  /\ 9 <= length (split TAB (strip line)).
Proof.
  unfold qualifies. rewrite !andb_true_iff, negb_true_iff, nonblank_strip.
  rewrite Nat.leb_le. tauto.
Qed.

Section Run.
Context (repr : str -> str) (list_of_set : gset (list N) -> list str).

(** The row of one line, in its place in the output of a run. *)
Lemma run_row w gff fam out cf cg d pre line post row :
  files w !! fam = Some (Regular cf) ->
  files w !! gff = Some (Regular cg) ->
  creatable w out -> out <> gff ->
  fst (for_with (lines_of cf) [] read_family w) = Ok d -> d <> [] ->
  lines_of cg = pre ++ line :: post ->
  gff_row d line = Some row ->
  exists w',
    add_family_column repr list_of_set gff fam out w = (Ok tt, w')
    /\ text_of w' out
       = Some (concat (gff_rows d pre) ++ row ++ concat (gff_rows d post)).
Proof.
  intros Hfam Hgff Hout Hne Hd Hd0 Hlines Hrow.
  apply lookup_built in Hd. subst d.
  pose proof (add_family_column_run repr list_of_set w gff fam out cf cg
                Hfam Hgff Hout Hne Hd0) as Hrun.
  cbv zeta in Hrun. rewrite Hrun. eexists. split; [reflexivity|].
  unfold text_of. cbn [files]. rewrite lookup_insert_eq.
  rewrite Hlines, gff_rows_split, Hrow.
  change (option_list (Some row)) with [row].
  rewrite !concat_app. cbn [concat]. now rewrite app_nil_r.
Qed.

End Run.

(** *** The motif pattern *)

Lemma after_prefix_app p s rest : after_prefix p s = Some rest -> s = p ++ rest.
Proof.
  revert s. induction p as [|a p IH]; intros [|c s]; cbn [after_prefix app];
    try congruence.
  destruct (N.eqb_spec c a) as [->|]; [|discriminate].
  intros H. now rewrite (IH _ H).
Qed.

Lemma span_motif_spec s :
  exists rest,
    s = span_motif s ++ rest
    /\ Forall (fun c => motif_char c = true) (span_motif s)
    /\ match rest with [] => True | c :: _ => motif_char c = false end.
Proof.
  induction s as [|c s (rest & Hs & Hall & Hrest)]; [now exists [] |].
  cbn [span_motif]. destruct (motif_char c) eqn:Hc.
  - exists rest. cbn [app]. rewrite <- Hs. repeat split; [now constructor | exact Hrest].
  - exists (c :: s). repeat split; [constructor | exact Hc].
Qed.

(** What [re_search_motif] returns is a group of the pattern: the text
    has [Motif:] in it, followed by the group, which is not empty, has
    no double quote and no whitespace, and ends where such a character
    or the end of the text comes. *)
Lemma re_search_motif_sound s g :
  re_search_motif s = Some g ->
  exists before rest,
    s = before ++ lit "Motif:" ++ g ++ rest
    /\ g <> []
    /\ Forall (fun c => c <> QUOTE /\ isspace c = false) g
    /\ match rest with [] => True | c :: _ => c = QUOTE \/ isspace c = true end.
Proof.
  induction s as [|c s IH]; [discriminate |].
  assert (Hnext : re_search_motif s = Some g ->
                  exists before rest,
                    c :: s = before ++ lit "Motif:" ++ g ++ rest
                    /\ g <> []
                    /\ Forall (fun c => c <> QUOTE /\ isspace c = false) g
                    /\ match rest with
                       | [] => True
                       | c :: _ => c = QUOTE \/ isspace c = true
                       end).
  { intros H. destruct (IH H) as (before & rest & -> & Hrest).
    now exists (c :: before), rest. }
  cbn [re_search_motif].
  destruct (after_prefix (lit "Motif:") (c :: s)) as [tl|] eqn:E; [|exact Hnext].
  destruct (span_motif tl) as [|a g'] eqn:Eg; [exact Hnext |].
  intros [= <-]. apply after_prefix_app in E.
  destruct (span_motif_spec tl) as (rest & Htl & Hall & Hrest).
  rewrite Eg in Htl, Hall. exists [], rest. cbn [app]. repeat split.
  - rewrite E, Htl. reflexivity.
  - discriminate.
  - eapply Forall_impl; [exact Hall |]. intros x Hx. unfold motif_char in Hx.
    apply andb_true_iff in Hx as [Hq Hs]. apply negb_true_iff in Hq, Hs.
    split; [now apply N.eqb_neq | exact Hs].
  - destruct rest as [|x rest]; [exact I |]. unfold motif_char in Hrest.
    apply andb_false_iff in Hrest as [Hq | Hs].
    + left. apply negb_false_iff in Hq. now apply N.eqb_eq.
    + right. now apply negb_false_iff in Hs.
Qed.

(** *** The empty lookup *)

(** C8. When the lines of the lookup file give no entry, the run prints
    the error about the empty dictionary as its last message and
    returns: the lookup file is the only file it has opened, so the GFF
    file is not opened or read, the output file is not opened or
    created, and no file has changed. *)
Theorem C8_empty_lookup_aborts repr list_of_set w gff fam out cf :
  files w !! fam = Some (Regular cf) ->
  fst (for_with (lines_of cf) [] read_family w) = Ok [] ->
  exists w',
    add_family_column repr list_of_set gff fam out w = (Ok tt, w')
    /\ files w' = files w
    /\ opens w' = opens w ++ [(fam, R)]
    /\ last (stdout w')
       = Some ([NL] ++ lit "Error: The family lookup dictionary is empty. Please check your family list file.").
Proof.
  intros Hfam Hd. apply lookup_built in Hd. symmetry in Hd.
  rewrite (add_family_column_empty repr list_of_set w gff fam out cf Hfam Hd).
  eexists. split; [reflexivity |]. cbn [files opens stdout].
  repeat split. rewrite !app_assoc. apply last_snoc.
Qed.

Lemma C8_empty_lookup_aborts_witness :
  exists w',
    add_family_column (fun s => s) elements (lit "te.gff") (lit "families.tsv")
      (lit "out.gff") Sample.world_B_empty = (Ok tt, w')
    /\ files w' = files Sample.world_B_empty
    /\ opens w' = opens Sample.world_B_empty ++ [(lit "families.tsv", R)]
    /\ last (stdout w')
       = Some ([NL] ++ lit "Error: The family lookup dictionary is empty. Please check your family list file.").
Proof.
  apply (C8_empty_lookup_aborts (fun s => s) elements Sample.world_B_empty
           (lit "te.gff") (lit "families.tsv") (lit "out.gff")
           (lit "one" ++ [NL] ++ [NL])).
  - reflexivity.
  - vm_compute. reflexivity.
Defined.

(** *** Annotated lines *)

Lemma gff_row_label d line :
  startswith line [HASH] = false -> strip line <> [] ->
  9 <= length (split TAB (strip line)) ->
  gff_row d line = Some (strip line ++ [TAB] ++ label d line ++ [NL]).
Proof.
  intros H1 H2 H3. unfold gff_row.
  now rewrite (proj2 (qualifies_spec line)).
Qed.






(** *** The lines of the output *)

Lemma lines_of_concat rows :
  Forall (fun r => exists b, one_line b /\ r = b ++ [NL]) rows ->
  lines_of (concat rows) = rows.
Proof.
  unfold lines_of. induction 1 as [|r rows (b & Hb & ->) _ IH]; [reflexivity |].
  cbn [concat]. rewrite <- app_assoc. cbn [app].
  rewrite lines_from_row by exact Hb. now rewrite IH.
Qed.

Lemma lookup_values_one_line cf k v :
  dict_get (lookup_of (lines_of cf)) k = Some v -> one_line v.
Proof.
  intros H. apply lookup_of_last in H as (pre & l & post & Hlines & _ & Hsp & _).
  pose proof (lines_of_is_line cf) as Hall. rewrite Hlines in Hall.
  apply Forall_app in Hall as [_ Hall]. inversion Hall as [|? ? Hl _]; subst.
  pose proof (split_Forall _ TAB _ (strip_one_line _ Hl)) as Hf.
  rewrite Hsp in Hf. inversion Hf as [|? ? _ Hf']; subst.
  now inversion Hf'.
Qed.

Lemma label_one_line cf l : one_line (label (lookup_of (lines_of cf)) l).
Proof.
  unfold label. destruct (re_search_motif (attributes l)) as [motif|].
  - destruct (dict_get _ motif) as [family|] eqn:E.
    + exact (lookup_values_one_line _ _ _ E).
    + repeat constructor; discriminate.
  - repeat constructor; discriminate.
Qed.

Lemma gff_row_inv d l r :
  gff_row d l = Some r ->
  qualifies l = true /\ r = strip l ++ [TAB] ++ label d l ++ [NL].
Proof.
  unfold gff_row. destruct (qualifies l); [|discriminate].
  now intros [= <-].
Qed.

Lemma gff_rows_read_back cf cg :
  let d := lookup_of (lines_of cf) in
  lines_of (concat (gff_rows d (lines_of cg))) = gff_rows d (lines_of cg).
Proof.
  intros d. apply lines_of_concat, Forall_forall. intros r Hr.
  unfold gff_rows in Hr.
  apply list_elem_of_omap in Hr as (l & Hin & Hrow).
  apply gff_row_inv in Hrow as [_ ->].
  exists (strip l ++ [TAB] ++ label d l). split.
  - apply Forall_app. split.
    + apply strip_one_line.
      pose proof (lines_of_is_line cg) as Hall.
      rewrite Forall_forall in Hall. now apply Hall.
    + constructor; [split; discriminate | apply label_one_line].
  - now rewrite <- !app_assoc.
Qed.









Lemma lstrip_all_spaces sp : Forall (fun c => isspace c = true) sp -> lstrip sp = [].
Proof.
  induction 1 as [|c sp Hc _ IH]; [reflexivity |]. cbn [lstrip]. now rewrite Hc.
Qed.

Lemma strip_indented_hash sp rest :
  Forall (fun c => isspace c = true) sp ->
  strip (sp ++ HASH :: rest) = HASH :: rstrip rest.
Proof.
  intros Hsp. unfold strip. rewrite lstrip_app, (lstrip_all_spaces _ Hsp).
  cbn [lstrip]. change (isspace HASH) with false. cbn iota.
  now apply rstrip_cons_nonspace.
Qed.

(** C10. The test for a comment is made on the line as read: a line of
    the GFF file that is whitespace, then [#], then the rest, does not
    start with [#] for the run although its trimmed text does; when
    that trimmed text has at least nine tab-separated fields, the run
    writes for the line, in its place, the trimmed text (which starts
    with [#]), a tab, the label of the line and a newline. *)
Theorem C10_indented_hash_is_data repr list_of_set w gff fam out cf cg d
    pre line post sp rest :
  files w !! fam = Some (Regular cf) ->
  files w !! gff = Some (Regular cg) ->
  creatable w out -> out <> gff ->
  fst (for_with (lines_of cf) [] read_family w) = Ok d -> d <> [] ->
  lines_of cg = pre ++ line :: post ->
  line = sp ++ HASH :: rest ->
  sp <> [] -> Forall (fun c => isspace c = true) sp ->
  9 <= length (split TAB (strip line)) ->
  startswith line [HASH] = false
  /\ strip line = HASH :: rstrip rest
  /\ exists w',
       add_family_column repr list_of_set gff fam out w = (Ok tt, w')
       /\ text_of w' out
          = Some (concat (gff_rows d pre)
                  ++ (HASH :: rstrip rest ++ [TAB] ++ label d line ++ [NL])
                  ++ concat (gff_rows d post)).
Proof.
  intros Hfam Hgff Hout Hne Hd Hd0 Hlines Hline Hsp0 Hsp H9.
  assert (Hstrip : strip line = HASH :: rstrip rest)
    by (subst line; now apply strip_indented_hash).
  assert (Hstart : startswith line [HASH] = false).
  { subst line. destruct sp as [|c sp]; [contradiction |].
    inversion Hsp as [|? ? Hc _]; subst. cbn [app startswith].
    destruct (N.eqb_spec c HASH) as [->|]; [discriminate Hc | reflexivity]. }
  split; [exact Hstart |]. split; [exact Hstrip |].
  apply (run_row repr list_of_set w gff fam out cf cg d pre line post);
    try assumption.
  rewrite gff_row_label; try assumption.
  - now rewrite Hstrip.
  - rewrite Hstrip. discriminate.
Qed.

Lemma C10_indented_hash_is_data_witness :
  exists w',
    add_family_column (fun s => s) elements (lit "te.gff") (lit "families.tsv")
      (lit "out.gff") Sample.world_B_hash = (Ok tt, w')
    /\ text_of w' (lit "out.gff")
       = Some (lit "#" ++ Sample.gff_record ++ [TAB] ++ lit "LINE" ++ [NL]).
Proof.
  destruct (C10_indented_hash_is_data (fun s => s) elements Sample.world_B_hash
              (lit "te.gff") (lit "families.tsv") (lit "out.gff")
              Sample.lookup_text Sample.gff_hash_text
              [(lit "rnd-1_family", lit "LINE"); (lit "rnd-2_family", lit "DNA")]
              [lit "##gff-version 3" ++ [NL]]
              (Sample.gff_indented_hash ++ [NL]) []
              (lit " ") (Sample.gff_record ++ [NL]))
    as (_ & _ & w' & Hrun & Htext).
  - reflexivity.
  - reflexivity.
  - intros e. vm_compute. discriminate.
  - vm_compute. discriminate.
  - vm_compute. reflexivity.
  - discriminate.
  - vm_compute. reflexivity.
  - vm_compute. reflexivity.
  - discriminate.
  - repeat constructor.
  - vm_compute. lia.
  - exists w'. split; [exact Hrun |]. rewrite Htext. vm_compute. reflexivity.
Defined.

End AnnotateClaims.

(** ** Frames of the operations *)

Section Frames.
Import Py.
















End Frames.

(** ** Stage A: further properties of a run *)

Section FormatFurther.
Import Py FormatRM Rows.




(** X2. When the input file is read and the main output file is opened,
    and opening the side output file raises an exception, the run
    stops there: the main output file is left behind, created or
    emptied, without even its header line, and the exception is
    reported as a message ([FileNotFoundError] as the input file not
    being found). *)
Theorem format_second_output_refused w input main extra content e :
  files w !! input = Some (Regular content) ->
  creatable w main ->
  files w !! extra = Some (Unopenable e) ->
  format_repeatmasker_output input main extra w =
  (Ok tt,
   World (<[main := Regular []]> (files w))
         (stdout w
          ++ [match e with
              | FileNotFoundError _ =>
                  lit "Error: The file '" ++ input ++ lit "' was not found."
              | ValueError msg | Exception msg => lit "An error occurred: " ++ msg
              end])
         (opens w ++ [(input, R); (main, W); (extra, W)])).
Proof.
  intros Hin Hmain Hextra.
  assert (Hne : main <> extra) by (intros ->; exact (Hmain e Hextra)).
  unfold format_repeatmasker_output, try_except.
  erewrite bind_ok by (apply (open_read_regular _ _ content); exact Hin).
  erewrite bind_ok by (apply (readlines_regular _ _ content); exact Hin).
  erewrite bind_ok by (apply open_write_creatable; exact Hmain).
  erewrite bind_raise; cycle 1.
  { apply (open_refused _ _ _ e). cbn [files].
    rewrite lookup_insert_ne by exact Hne. exact Hextra. }
  cbn [files stdout opens]. rewrite <- !app_assoc.
  destruct e; reflexivity.
Qed.

Lemma format_second_output_refused_witness :
  format_repeatmasker_output (lit "rm.out") (lit "main.tsv") (lit "locked.tsv")
    Edge.world_A_refused
  = (Ok tt,
     World (<[lit "main.tsv" := Regular []]> (files Edge.world_A_refused))
           [lit "An error occurred: [Errno 13] Permission denied: 'locked.tsv'"]
           [(lit "rm.out", R); (lit "main.tsv", W); (lit "locked.tsv", W)]).
Proof.
  apply (format_second_output_refused Edge.world_A_refused (lit "rm.out")
           (lit "main.tsv") (lit "locked.tsv") Sample.report
           (Exception (lit "[Errno 13] Permission denied: 'locked.tsv'"))).
  - reflexivity.
  - intros e. vm_compute. discriminate.
  - reflexivity.
Defined.

(** X3. The clause for [FileNotFoundError] names the input file, whichever
    [open] raised it: when the input file exists and opening the main
    output file raises [FileNotFoundError] (its directory does not
    exist), the run reports the input file as not found, and creates
    and changes no file. *)
Theorem format_output_not_found_names_input w input main extra content path :
  files w !! input = Some (Regular content) ->
  files w !! main = Some (Unopenable (FileNotFoundError path)) ->
  format_repeatmasker_output input main extra w =
  (Ok tt,
   World (files w)
         (stdout w ++ [lit "Error: The file '" ++ input ++ lit "' was not found."])
         (opens w ++ [(input, R); (main, W)])).
Proof.
  intros Hin Hmain. unfold format_repeatmasker_output, try_except.
  erewrite bind_ok by (apply (open_read_regular _ _ content); exact Hin).
  erewrite bind_ok by (apply (readlines_regular _ _ content); exact Hin).
  erewrite bind_raise; cycle 1.
  { apply (open_refused _ _ _ (FileNotFoundError path)). exact Hmain. }
  cbn [files stdout opens]. now rewrite <- !app_assoc.
Qed.

Lemma format_output_not_found_names_input_witness :
  format_repeatmasker_output (lit "rm.out") (lit "nodir/main.tsv") (lit "extra.tsv")
    Edge.world_A_refused
  = (Ok tt,
     World (files Edge.world_A_refused)
           [lit "Error: The file 'rm.out' was not found."]
           [(lit "rm.out", R); (lit "nodir/main.tsv", W)]).
Proof.
  apply (format_output_not_found_names_input Edge.world_A_refused (lit "rm.out")
           (lit "nodir/main.tsv") (lit "extra.tsv") Sample.report
           (lit "nodir/main.tsv")).
  - reflexivity.
  - reflexivity.
Defined.

(** *** Rows, side rows and warnings *)

Lemma rows_count lines :
  length (main_rows lines) = length (extra_rows lines) + length (warnings lines).
Proof.
  unfold main_rows, extra_rows, warnings.
  induction lines as [|l lines IH]; [reflexivity |].
  cbn [List.filter].
  change (omap ?f (l :: lines))
    with (match f l with Some y => y :: omap f lines | None => omap f lines end).
  unfold extra_row at 1, warning at 1.
  destruct (nonblank l); cbn [andb]; [| exact IH].
  destruct (11 <=? _); cbn [negb map length]; rewrite IH; lia.
Qed.

Lemma main_rows_read_back lines :
  lines_of ((join [TAB] header ++ [NL]) ++ concat (main_rows lines))
  = (join [TAB] header ++ [NL]) :: main_rows lines.
Proof.
  pose proof (lines_of_rows
                (join [TAB] header
                 :: map (fun l => re_sub_spaces [TAB] (strip l))
                        (List.filter nonblank lines))) as H.
  cbn [map concat] in H. rewrite map_map in H. apply H.
  constructor; [exact header_one_line | apply main_rows_one_line].
Qed.

Lemma extra_rows_read_back lines :
  lines_of (concat (extra_rows lines)) = extra_rows lines.
Proof.
  apply lines_of_concat, Forall_forall. intros r Hr. unfold extra_rows in Hr.
  apply list_elem_of_omap in Hr as (l & _ & Hrow). unfold extra_row in Hrow.
  destruct (nonblank l) eqn:Hnb; [| discriminate Hrow].
  rewrite columns_tokens in Hrow by (now apply nonblank_strip).
  destruct (11 <=? length (tokens l)); [| discriminate Hrow].
  injection Hrow as <-.
  exists (nth 9 (tokens l) [] ++ [TAB] ++ nth 10 (tokens l) []). split.
  - apply Forall_app. split; [apply token_one_line |].
    constructor; [split; discriminate | apply token_one_line].
  - now rewrite <- !app_assoc.
Qed.

(** X4. Every data line is accounted for: the main output has its header
    line and one line for each side-output line and for each warning
    that the run prints before its three closing messages. *)
Theorem format_accounting w input main extra content :
  files w !! input = Some (Regular content) ->
  creatable w main -> creatable w extra -> main <> extra ->
  exists w' main_text extra_text warns,
    format_repeatmasker_output input main extra w = (Ok tt, w')
    /\ text_of w' main = Some main_text
    /\ text_of w' extra = Some extra_text
    /\ stdout w'
       = stdout w ++ warns
         ++ [lit "Successfully processed '" ++ input ++ lit "'.";
             lit "  - Main TSV saved to: '" ++ main ++ lit "'";
             lit "  - Extra columns saved to: '" ++ extra ++ lit "'"]
    /\ Forall (fun m => startswith m (lit "Warning: Skipped a line") = true) warns
    /\ length (lines_of main_text)
       = 1 + length (lines_of extra_text) + length warns.
Proof.
  intros Hin Hmain Hextra Hne.
  rewrite (format_run w input main extra content) by assumption. cbv zeta.
  set (data_lines := drop 3 (lines_of content)).
  eexists. exists ((join [TAB] header ++ [NL]) ++ concat (main_rows data_lines)),
            (concat (extra_rows data_lines)), (warnings data_lines).
  split; [reflexivity |]. unfold text_of. cbn [files stdout].
  rewrite lookup_insert_eq, lookup_insert_ne, lookup_insert_eq by congruence.
  repeat split.
  - apply Forall_forall. intros m Hm. unfold warnings in Hm.
    apply list_elem_of_omap in Hm as (l & _ & Hl). unfold warning in Hl.
    destruct (_ && _); [| discriminate Hl]. now injection Hl as <-.
  - rewrite main_rows_read_back, extra_rows_read_back. cbn [length].
    rewrite rows_count. lia.
Qed.

Lemma format_accounting_witness :
  exists w' main_text extra_text,
    format_repeatmasker_output (lit "rm.out") (lit "main.tsv") (lit "extra.tsv")
      Sample.world_A = (Ok tt, w')
    /\ text_of w' (lit "main.tsv") = Some main_text
    /\ text_of w' (lit "extra.tsv") = Some extra_text
    /\ length (lines_of main_text) = 3
    /\ length (lines_of extra_text) = 1
    /\ length (stdout w') = 1 + 3.
Proof.
  destruct (format_accounting Sample.world_A (lit "rm.out") (lit "main.tsv")
              (lit "extra.tsv") Sample.report)
    as (w' & main_text & extra_text & warns & Hrun & Hm & He & Hout & _ & Hlen).
  - reflexivity.
  - intros e. vm_compute. discriminate.
  - intros e. vm_compute. discriminate.
  - vm_compute. discriminate.
  - exists w', main_text, extra_text.
    assert (Hw' : w' = snd (format_repeatmasker_output (lit "rm.out") (lit "main.tsv")
                              (lit "extra.tsv") Sample.world_A)) by now rewrite Hrun.
    split; [exact Hrun |]. split; [exact Hm |]. split; [exact He |].
    rewrite Hw' in Hm, He |- *.
    vm_compute in Hm. injection Hm as <-. vm_compute in He. injection He as <-.
    vm_compute. repeat split.
Defined.

(** *** The columns of a row *)

Lemma tokens_nonempty s : Forall (fun t => t <> []) (tokens s).
Proof.
  induction s as [|c s IH]; [constructor |].
  destruct s as [|c' s'].
  - cbn. destruct (isspace c); now repeat constructor.
  - rewrite tokens_cons_cons.
    destruct (isspace c); [exact IH |].
    destruct (isspace c'); [now repeat constructor |].
    destruct (tokens (c' :: s')) as [|t ts]; [now repeat constructor |].
    inversion IH; subst. now repeat constructor.
Qed.

(** X5. The columns that [process_line] splits a line into, when the line
    is not blank: there is at least one, none is empty, and none has a
    whitespace character in it. *)
Theorem format_columns_clean line :
  strip line <> [] ->
  let columns := split TAB (re_sub_spaces [TAB] (strip line)) in
  columns <> []
  /\ Forall (fun column => column <> []
                           /\ Forall (fun c => isspace c = false) column) columns.
Proof.
  intros Hne. cbv zeta. rewrite columns_tokens by exact Hne.
  split; [now apply tokens_nonblank |].
  apply Forall_and. split; [apply tokens_nonempty | apply tokens_nonspace].
Qed.

Lemma format_columns_clean_witness :
  let columns := split TAB (re_sub_spaces [TAB] (strip (lit "  a  b" ++ [TAB; NL]))) in
  columns = [lit "a"; lit "b"]
  /\ Forall (fun column => column <> []
                           /\ Forall (fun c => isspace c = false) column) columns.
Proof.
  split; [vm_compute; reflexivity |].
  apply (format_columns_clean (lit "  a  b" ++ [TAB; NL])).
  vm_compute. discriminate.
Defined.

(** X6. A row of the main output is a fixed point of the conversion: the
    line that [process_line] writes for a line, taken as an input line,
    is written as it is. *)
Theorem format_row_fixed_point line :
  let row := re_sub_spaces [TAB] (strip line) ++ [NL] in
  re_sub_spaces [TAB] (strip row) ++ [NL] = row.
Proof.
  cbv zeta. f_equal. change (re_sub_spaces [TAB] (strip line) ++ [NL]) with (main_row line).
  destruct (strip line) as [|c s] eqn:E.
  - unfold main_row. rewrite E. reflexivity.
  - assert (Hne : strip line <> []) by (rewrite E; discriminate).
    assert (Hrow : strip (main_row line) <> []).
    { apply nonblank_strip, nonblank_main_row, nonblank_strip, Hne. }
    rewrite <- E.
    now rewrite (sub_join_tokens _ Hrow), tokens_main_row, (sub_join_tokens _ Hne).
Qed.

(** *** An input of at most three lines *)

(** X20. The first three lines are removed without a test that they are
    there: on an input of three lines or fewer (an empty file too) the
    run succeeds, the main output is the header line alone, the side
    output is created empty, and no warning is printed. *)
Theorem format_short_input w input main extra content :
  files w !! input = Some (Regular content) ->
  creatable w main -> creatable w extra -> main <> extra ->
  length (lines_of content) <= 3 ->
  format_repeatmasker_output input main extra w =
  (Ok tt,
   World (<[extra := Regular []]>
            (<[main := Regular (join [TAB] header ++ [NL])]> (files w)))
         (stdout w
          ++ [lit "Successfully processed '" ++ input ++ lit "'.";
              lit "  - Main TSV saved to: '" ++ main ++ lit "'";
              lit "  - Extra columns saved to: '" ++ extra ++ lit "'"])
         (opens w ++ [(input, R); (main, W); (extra, W)])).
Proof.
  intros Hin Hmain Hextra Hne Hlen.
  rewrite (format_run w input main extra content) by assumption. cbv zeta.
  rewrite drop_ge by exact Hlen. cbn [main_rows extra_rows warnings List.filter map concat].
  change (omap extra_row []) with (@nil (list N)).
  change (omap warning []) with (@nil (list N)).
  cbn [concat app]. now rewrite app_nil_r.
Qed.

Lemma format_short_input_witness :
  format_repeatmasker_output (lit "two.out") (lit "main.tsv") (lit "extra.tsv")
    (World {[ lit "two.out" := Regular (lit "a b" ++ [NL] ++ lit "c d") ]} [] [])
  = (Ok tt,
     World {[ lit "two.out" := Regular (lit "a b" ++ [NL] ++ lit "c d");
              lit "main.tsv" := Regular (join [TAB] header ++ [NL]);
              lit "extra.tsv" := Regular [] ]}
           [lit "Successfully processed 'two.out'.";
            lit "  - Main TSV saved to: 'main.tsv'";
            lit "  - Extra columns saved to: 'extra.tsv'"]
           [(lit "two.out", R); (lit "main.tsv", W); (lit "extra.tsv", W)]).
Proof.
  rewrite (format_short_input _ (lit "two.out") (lit "main.tsv") (lit "extra.tsv")
             (lit "a b" ++ [NL] ++ lit "c d")).
  - vm_compute. reflexivity.
  - reflexivity.
  - intros e. vm_compute. discriminate.
  - intros e. vm_compute. discriminate.
  - vm_compute. discriminate.
  - vm_compute. lia.
Defined.

End FormatFurther.

(** ** From Stage A to Stage B *)

Section Pipeline.
Import Py FormatRM AddTEclass Rows.

Lemma split_no_sep sep s : Forall (fun c => c <> sep) s -> split sep s = [s].
Proof.
  induction 1 as [|c s Hc _ IH]; [reflexivity |].
  cbn [split]. apply N.eqb_neq in Hc. now rewrite Hc, IH.
Qed.

Lemma split_app_sep sep a b :
  Forall (fun c => c <> sep) a -> split sep (a ++ sep :: b) = a :: split sep b.
Proof.
  induction 1 as [|c a Hc _ IH]; cbn [app split].
  - now rewrite N.eqb_refl.
  - apply N.eqb_neq in Hc. now rewrite Hc, IH.
Qed.

Lemma strip_clean c t : isspace c = false -> ends_clean (c :: t) -> strip (c :: t) = c :: t.
Proof.
  intros Hc (x & Hx & Hsp). unfold strip. rewrite lstrip_fixed by exact Hc.
  apply last_Some in Hx as [y Hy]. rewrite Hy. now apply rstrip_snoc_nonspace.
Qed.

Lemma nonspace_not_tab s :
  Forall (fun c => isspace c = false) s -> Forall (fun c => c <> TAB) s.
Proof.
  intros H. eapply Forall_impl; [exact H |]. intros c Hc ->. discriminate Hc.
Qed.

(** A line of two fields without whitespace, as Stage A writes it, is
    what the lookup construction reads as an entry. *)
Lemma strip_side_row a b :
  a <> [] -> b <> [] ->
  Forall (fun c => isspace c = false) a -> Forall (fun c => isspace c = false) b ->
  strip (a ++ [TAB] ++ b ++ [NL]) = a ++ TAB :: b.
Proof.
  intros Ha Hb Fa Fb.
  replace (a ++ [TAB] ++ b ++ [NL]) with ((a ++ TAB :: b) ++ [NL])
    by (now rewrite <- app_assoc).
  rewrite strip_newline. destruct a as [|c a]; [contradiction |].
  inversion Fa as [|? ? Hc _]; subst. apply strip_clean; [exact Hc |].
  destruct (exists_last Hb) as (b' & x & ->).
  exists x. split.
  - transitivity (last ((c :: a ++ TAB :: b') ++ [x])); [| apply last_snoc].
    f_equal. cbn [app]. now rewrite <- app_assoc.
  - apply Forall_app in Fb as [_ Fx]. now inversion Fx.
Qed.

Lemma entry_side_row a b :
  a <> [] -> b <> [] ->
  Forall (fun c => isspace c = false) a -> Forall (fun c => isspace c = false) b ->
  entry (a ++ [TAB] ++ b ++ [NL]) = Some (a, b)
  /\ malformed (a ++ [TAB] ++ b ++ [NL]) = false.
Proof.
  intros Ha Hb Fa Fb.
  assert (Hnb : nonblank (a ++ [TAB] ++ b ++ [NL]) = true).
  { apply nonblank_strip. rewrite strip_side_row by assumption. now destruct a. }
  assert (Hsplit : split TAB (strip (a ++ [TAB] ++ b ++ [NL])) = [a; b]).
  { rewrite strip_side_row by assumption.
    rewrite split_app_sep by now apply nonspace_not_tab.
    now rewrite split_no_sep by now apply nonspace_not_tab. }
  split.
  - unfold entry. now rewrite strip_idem, Hsplit, Hnb.
  - now rewrite malformed_spec, Hsplit, Hnb.
Qed.

Lemma token_clean l n :
  n < length (tokens l) ->
  nth n (tokens l) [] <> [] /\ Forall (fun c => isspace c = false) (nth n (tokens l) []).
Proof.
  intros Hn. apply (nth_In _ []), list_elem_of_In in Hn. split.
  - pose proof (tokens_nonempty l) as H. rewrite Forall_forall in H. now apply H.
  - pose proof (tokens_nonspace l) as H. rewrite Forall_forall in H. now apply H.
Qed.

Lemma side_row_entry l :
  11 <= length (tokens l) ->
  let row := nth 9 (tokens l) [] ++ [TAB] ++ nth 10 (tokens l) [] ++ [NL] in
  entry row = Some (nth 9 (tokens l) [], nth 10 (tokens l) [])
  /\ malformed row = false.
Proof.
  intros H. destruct (token_clean l 9) as [H9 F9]; [lia |].
  destruct (token_clean l 10) as [H10 F10]; [lia |].
  now apply entry_side_row.
Qed.

Lemma side_rows_lookup data d0 :
  Forall (fun l => 11 <= length (tokens l)) data ->
  let rows := map (fun l => nth 9 (tokens l) [] ++ [TAB] ++ nth 10 (tokens l) [] ++ [NL])
                  data in
  fold_left (fun d line =>
               match entry line with
               | Some (motif, family) => dict_set d motif family
               | None => d
               end) rows d0
  = fold_left (fun d l => dict_set d (nth 9 (tokens l) []) (nth 10 (tokens l) []))
              data d0
  /\ lookup_warnings rows = [].
Proof.
  intros Hdata. cbv zeta. revert d0.
  induction Hdata as [|l data Hl _ IH]; intros d0; [now split |].
  destruct (side_row_entry l Hl) as [He Hm]. cbv zeta in He, Hm.
  cbn [map fold_left]. rewrite He. destruct (IH (dict_set d0 (nth 9 (tokens l) [])
                                                   (nth 10 (tokens l) []))) as [IH1 IH2].
  split; [exact IH1 |].
  unfold lookup_warnings in IH2 |- *. cbn [List.filter]. now rewrite Hm.
Qed.

(** X7. The side output of a run of Stage A is a lookup file that Stage B
    reads without a warning: over its lines, the lookup construction
    prints nothing and returns the dictionary in which, for each data
    line with at least 11 tokens in turn, token 9 has been given token
    10; the dictionary is empty only when there is no such data line. *)
Theorem format_side_is_lookup w input main extra content :
  files w !! input = Some (Regular content) ->
  creatable w main -> creatable w extra -> main <> extra ->
  let data := List.filter (fun l => 11 <=? length (tokens l))
                          (List.filter nonblank (drop 3 (lines_of content))) in
  let d := fold_left (fun d l => dict_set d (nth 9 (tokens l) []) (nth 10 (tokens l) []))
                     data [] in
  exists w' side,
    format_repeatmasker_output input main extra w = (Ok tt, w')
    /\ text_of w' extra = Some side
    /\ (forall w0, for_with (lines_of side) [] read_family w0 = (Ok d, w0))
    /\ (d = [] <-> data = []).
Proof.
  intros Hin Hmain Hextra Hne data d.
  rewrite (format_run w input main extra content) by assumption. cbv zeta.
  eexists. exists (concat (extra_rows (drop 3 (lines_of content)))).
  split; [reflexivity |]. split.
  { unfold text_of. cbn [files]. now rewrite lookup_insert_eq. }
  assert (Hdata : Forall (fun l => 11 <= length (tokens l)) data).
  { eapply Forall_impl; [apply filter_Forall |]. intros l Hl. now apply Nat.leb_le. }
  split.
  - intros w0. rewrite extra_rows_read_back, extra_rows_tokens, read_family_loop.
    destruct (side_rows_lookup data [] Hdata) as [Hd Hw]. cbv zeta in Hd, Hw.
    fold data. rewrite Hd, Hw, app_nil_r. now destruct w0.
  - subst d. split.
    + intros Hd. destruct data as [|l data'] using rev_ind; [reflexivity |].
      rewrite fold_left_app in Hd. cbn [fold_left] in Hd.
      now apply dict_set_nonempty in Hd.
    + now intros ->.
Qed.

Lemma format_side_is_lookup_witness :
  exists w' side,
    format_repeatmasker_output (lit "rm.out") (lit "main.tsv") (lit "extra.tsv")
      Sample.world_A = (Ok tt, w')
    /\ text_of w' (lit "extra.tsv") = Some side
    /\ for_with (lines_of side) [] read_family (World ∅ [] [])
       = (Ok [(lit "rnd-1_family", lit "LINE/L1")], World ∅ [] []).
Proof.
  destruct (format_side_is_lookup Sample.world_A (lit "rm.out") (lit "main.tsv")
              (lit "extra.tsv") Sample.report)
    as (w' & side & Hrun & Hside & Hd & _).
  - reflexivity.
  - intros e. vm_compute. discriminate.
  - intros e. vm_compute. discriminate.
  - vm_compute. discriminate.
  - exists w', side. split; [exact Hrun |]. split; [exact Hside |].
    rewrite Hd. vm_compute. reflexivity.
Defined.

End Pipeline.

(** ** Stage B: further properties of a run *)

Section AnnotateFurther.
Import Py AddTEclass Rows.




Section Run.
Context (repr : str -> str) (list_of_set : gset (list N) -> list str).



End Run.



(** *** Failures *)

(** A run up to the point where the GFF file is opened, when the lookup
    file gives entries. *)
Lemma add_family_column_fails repr list_of_set w gff fam out cf e w1 :
  files w !! fam = Some (Regular cf) ->
  lookup_of (lines_of cf) <> [] ->
  (infile ← open gff R; outfile ← open out W; mret (infile, outfile))
    (World (files w)
           (stdout w
            ++ [lit "--- Starting Process ---";
                lit "Reading TE family map from '" ++ fam ++ lit "'..."]
            ++ lookup_warnings (lines_of cf)
            ++ [lit "Successfully mapped " ++ str_of_nat (length (lookup_of (lines_of cf)))
                ++ lit " motifs.";
                lit "Processing '" ++ gff ++ lit "' and writing to '" ++ out ++ lit "'..."])
           (opens w ++ [(fam, R)]))
  = (Raise e, w1) ->
  add_family_column repr list_of_set gff fam out w =
  (Ok tt,
   World (files w1)
         (stdout w1
          ++ [match e with
              | FileNotFoundError _ =>
                  lit "Error: A required file was not found. Details: " ++ exn_str repr e
              | ValueError _ | Exception _ =>
                  lit "An unexpected error occurred: " ++ exn_str repr e
              end])
         (opens w1)).
Proof.
  intros Hfam Hd Hopen. unfold add_family_column.
  erewrite bind_ok by apply print_run. unfold try_except.
  erewrite bind_ok by apply print_run. cbn [files stdout opens].
  erewrite bind_ok by (apply (open_read_regular _ _ cf); exact Hfam).
  cbn [files stdout opens].
  erewrite bind_ok by (apply (readlines_regular _ _ cf); exact Hfam).
  erewrite bind_ok by apply read_family_loop.
  fold (lookup_of (lines_of cf)).
  assert (Ht : truthy (lookup_of (lines_of cf)) = true)
    by now destruct (lookup_of (lines_of cf)).
  rewrite Ht. cbn [negb].
  erewrite bind_ok by apply print_run.
  erewrite bind_ok by apply print_run. cbn [files stdout opens].
  rewrite <- !app_assoc. cbn [app] in Hopen |- *.
  unfold mbind, M_bind in Hopen |- *.
  match type of Hopen with
  | context [open gff R ?w0] => destruct (open gff R w0) as [[infile|e1] w2]
  end.
  - match type of Hopen with
    | context [open out W ?w0] => destruct (open out W w0) as [[outfile|e2] w3]
    end; [discriminate Hopen |].
    injection Hopen as <- <-. destruct e2; reflexivity.
  - injection Hopen as <- <-. destruct e1; reflexivity.
Qed.

(** X10. When the lookup file does not exist, the run reports it with the
    text of the exception and returns: the lookup file is the only path
    it has tried to open, and no file is created or changed. *)
Theorem annotate_missing_lookup repr list_of_set w gff fam out :
  files w !! fam = None ->
  add_family_column repr list_of_set gff fam out w =
  (Ok tt,
   World (files w)
         (stdout w
          ++ [lit "--- Starting Process ---";
              lit "Reading TE family map from '" ++ fam ++ lit "'...";
              lit "Error: A required file was not found. Details: "
              ++ lit "[Errno 2] No such file or directory: " ++ repr fam])
         (opens w ++ [(fam, R)])).
Proof.
  intros Hfam. unfold add_family_column.
  erewrite bind_ok by apply print_run. unfold try_except.
  erewrite bind_ok by apply print_run. cbn [files stdout opens].
  erewrite bind_raise by (apply open_read_missing; exact Hfam).
  unfold print, exn_str. cbn [files stdout opens]. now rewrite <- !app_assoc.
Qed.

Lemma annotate_missing_lookup_witness :
  add_family_column (fun s => [APOS] ++ s ++ [APOS]) elements
    (lit "te.gff") (lit "absent.tsv") (lit "out.gff") Sample.world_B
  = (Ok tt,
     World (files Sample.world_B)
           [lit "--- Starting Process ---";
            lit "Reading TE family map from 'absent.tsv'...";
            lit "Error: A required file was not found. Details: [Errno 2] No such file or directory: 'absent.tsv'"]
           [(lit "absent.tsv", R)]).
Proof.
  rewrite (annotate_missing_lookup (fun s => [APOS] ++ s ++ [APOS]) elements
             Sample.world_B (lit "te.gff") (lit "absent.tsv") (lit "out.gff")).
  - reflexivity.
  - reflexivity.
Defined.

(** X11. When the lookup file gives entries and the GFF file does not
    exist, the run reports it as its last message and returns: the
    output file is not opened, and no file is created or changed. *)
Theorem annotate_missing_gff repr list_of_set w gff fam out cf d :
  files w !! fam = Some (Regular cf) ->
  fst (for_with (lines_of cf) [] read_family w) = Ok d -> d <> [] ->
  files w !! gff = None ->
  exists w',
    add_family_column repr list_of_set gff fam out w = (Ok tt, w')
    /\ files w' = files w
    /\ opens w' = opens w ++ [(fam, R); (gff, R)]
    /\ last (stdout w')
       = Some (lit "Error: A required file was not found. Details: "
               ++ lit "[Errno 2] No such file or directory: " ++ repr gff).
Proof.
  intros Hfam Hd Hd0 Hgff. apply lookup_built in Hd. subst d.
  erewrite (add_family_column_fails repr list_of_set w gff fam out cf
              (FileNotFoundError gff)); cycle 1.
  { exact Hfam. }
  { exact Hd0. }
  { erewrite bind_raise by (apply open_read_missing; exact Hgff). reflexivity. }
  eexists. split; [reflexivity |]. cbn [files opens stdout].
  split; [reflexivity |]. split; [now rewrite <- app_assoc | apply last_snoc].
Qed.

Lemma annotate_missing_gff_witness :
  exists w',
    add_family_column (fun s => [APOS] ++ s ++ [APOS]) elements
      (lit "absent.gff") (lit "families.tsv") (lit "out.gff") Sample.world_B
    = (Ok tt, w')
    /\ files w' = files Sample.world_B
    /\ opens w' = [(lit "families.tsv", R); (lit "absent.gff", R)]
    /\ last (stdout w')
       = Some (lit "Error: A required file was not found. Details: [Errno 2] No such file or directory: 'absent.gff'").
Proof.
  apply (annotate_missing_gff (fun s => [APOS] ++ s ++ [APOS]) elements
           Sample.world_B (lit "absent.gff") (lit "families.tsv") (lit "out.gff")
           Sample.lookup_text
           [(lit "rnd-1_family", lit "LINE"); (lit "rnd-2_family", lit "DNA")]).
  - reflexivity.
  - vm_compute. reflexivity.
  - discriminate.
  - reflexivity.
Defined.

(** X12. When the lookup file gives entries, the GFF file exists and opening
    the output file raises an exception, the run reports the exception
    as its last message and returns; no file is created or changed. *)
Theorem annotate_output_refused repr list_of_set w gff fam out cf cg d e :
  files w !! fam = Some (Regular cf) ->
  fst (for_with (lines_of cf) [] read_family w) = Ok d -> d <> [] ->
  files w !! gff = Some (Regular cg) ->
  files w !! out = Some (Unopenable e) ->
  exists w',
    add_family_column repr list_of_set gff fam out w = (Ok tt, w')
    /\ files w' = files w
    /\ opens w' = opens w ++ [(fam, R); (gff, R); (out, W)]
    /\ last (stdout w')
       = Some (match e with
               | FileNotFoundError _ =>
                   lit "Error: A required file was not found. Details: " ++ exn_str repr e
               | ValueError _ | Exception _ =>
                   lit "An unexpected error occurred: " ++ exn_str repr e
               end).
Proof.
  intros Hfam Hd Hd0 Hgff Hout. apply lookup_built in Hd. subst d.
  erewrite (add_family_column_fails repr list_of_set w gff fam out cf e); cycle 1.
  { exact Hfam. }
  { exact Hd0. }
  { erewrite bind_ok by (apply (open_read_regular _ _ cg); exact Hgff).
    erewrite bind_raise by (apply (open_refused _ _ _ e); exact Hout).
    reflexivity. }
  eexists. split; [reflexivity |]. cbn [files opens stdout].
  split; [reflexivity |]. split; [now rewrite <- !app_assoc | apply last_snoc].
Qed.

Lemma annotate_output_refused_witness :
  exists w',
    add_family_column (fun s => [APOS] ++ s ++ [APOS]) elements
      (lit "te.gff") (lit "families.tsv") (lit "locked.gff") Edge.world_B_refused
    = (Ok tt, w')
    /\ files w' = files Edge.world_B_refused
    /\ opens w' = [(lit "families.tsv", R); (lit "te.gff", R); (lit "locked.gff", W)]
    /\ last (stdout w')
       = Some (lit "An unexpected error occurred: [Errno 13] Permission denied: 'locked.gff'").
Proof.
  apply (annotate_output_refused (fun s => [APOS] ++ s ++ [APOS]) elements
           Edge.world_B_refused (lit "te.gff") (lit "families.tsv") (lit "locked.gff")
           Sample.lookup_text Sample.gff_text
           [(lit "rnd-1_family", lit "LINE"); (lit "rnd-2_family", lit "DNA")]
           (Exception (lit "[Errno 13] Permission denied: 'locked.gff'"))).
  - reflexivity.
  - vm_compute. reflexivity.
  - discriminate.
  - reflexivity.
  - reflexivity.
Defined.

(** *** The output path on the GFF path *)

(** X13. When the output path is the path of the GFF file, opening it for
    writing empties the file before a line of it is read: the loop has
    no line to go through, the file is left empty, and the summary
    counts no mapped and no unknown motif. *)
Theorem annotate_onto_its_input repr list_of_set w gff fam cf cg d :
  files w !! fam = Some (Regular cf) ->
  fst (for_with (lines_of cf) [] read_family w) = Ok d -> d <> [] ->
  files w !! gff = Some (Regular cg) ->
  add_family_column repr list_of_set gff fam gff w =
  (Ok tt,
   World (<[gff := Regular []]> (files w))
         (stdout w
          ++ [lit "--- Starting Process ---";
              lit "Reading TE family map from '" ++ fam ++ lit "'..."]
          ++ lookup_warnings (lines_of cf)
          ++ [lit "Successfully mapped " ++ str_of_nat (length d) ++ lit " motifs.";
              lit "Processing '" ++ gff ++ lit "' and writing to '" ++ gff ++ lit "'...";
              [NL] ++ lit "--- Process Finished ---";
              lit "Output file saved to '" ++ gff ++ lit "'";
              [NL] ++ lit "--- Diagnostic Summary ---";
              lit "Successfully mapped motifs: 0";
              lit "Motifs not found (marked as UNKNOWN): 0"])
         (opens w ++ [(fam, R); (gff, R); (gff, W)])).
Proof.
  intros Hfam Hd Hd0 Hgff. apply lookup_built in Hd. subst d.
  unfold add_family_column.
  erewrite bind_ok by apply print_run. unfold try_except.
  erewrite bind_ok by apply print_run. cbn [files stdout opens].
  erewrite bind_ok by (apply (open_read_regular _ _ cf); exact Hfam).
  cbn [files stdout opens].
  erewrite bind_ok by (apply (readlines_regular _ _ cf); exact Hfam).
  erewrite bind_ok by apply read_family_loop.
  fold (lookup_of (lines_of cf)).
  assert (Ht : truthy (lookup_of (lines_of cf)) = true)
    by now destruct (lookup_of (lines_of cf)).
  rewrite Ht. cbn [negb].
  erewrite bind_ok by apply print_run.
  erewrite bind_ok by apply print_run. cbn [files stdout opens].
  erewrite bind_ok by (apply (open_read_regular _ _ cg); exact Hgff).
  cbn [files stdout opens].
  erewrite bind_ok; cycle 1.
  { apply open_write_creatable. intros e. cbn [files]. rewrite Hgff. discriminate. }
  cbn [files stdout opens].
  erewrite bind_ok; cycle 1.
  { apply (readlines_regular _ _ []). cbn [files name]. apply lookup_insert_eq. }
  change (lines_of []) with (@nil (list N)). cbn [for_with].
  unfold mbind, M_bind, mret, M_ret, print.
  cbn [files stdout opens found_count unknown_count Nat.ltb Nat.leb].
  f_equal. f_equal; now rewrite <- !app_assoc.
Qed.

Lemma annotate_onto_its_input_witness :
  exists w',
    add_family_column (fun s => [APOS] ++ s ++ [APOS]) elements
      (lit "te.gff") (lit "families.tsv") (lit "te.gff") Sample.world_B
    = (Ok tt, w')
    /\ text_of w' (lit "te.gff") = Some []
    /\ last (stdout w') = Some (lit "Motifs not found (marked as UNKNOWN): 0").
Proof.
  eexists. split.
  - apply (annotate_onto_its_input (fun s => [APOS] ++ s ++ [APOS]) elements
             Sample.world_B (lit "te.gff") (lit "families.tsv")
             Sample.lookup_text Sample.gff_text
             [(lit "rnd-1_family", lit "LINE"); (lit "rnd-2_family", lit "DNA")]).
    + reflexivity.
    + vm_compute. reflexivity.
    + discriminate.
    + reflexivity.
  - split; vm_compute; reflexivity.
Defined.

(** *** The counts of the summary *)

Lemma tally_step_counts d dg l :
  found_count (tally d dg l) + unknown_count (tally d dg l)
  = found_count dg + unknown_count dg + length (option_list (gff_row d l)).
Proof.
  unfold tally, gff_row. destruct dg as [found unknown um ms].
  destruct (qualifies l); [| simpl; lia].
  destruct (re_search_motif (attributes l)) as [motif|];
    [destruct (dict_get d motif) |];
    simpl; lia.
Qed.

Lemma tally_fold_counts d lines dg :
  found_count (fold_left (tally d) lines dg)
  + unknown_count (fold_left (tally d) lines dg)
  = found_count dg + unknown_count dg + length (gff_rows d lines).
Proof.
  revert dg. induction lines as [|l lines IH]; intros dg; cbn [fold_left].
  - cbn. lia.
  - rewrite IH, tally_step_counts. unfold gff_rows.
    change (omap ?f (l :: lines))
      with (match f l with Some y => y :: omap f lines | None => omap f lines end).
    destruct (gff_row d l); simpl; lia.
Qed.

(** X14. The two counts of the diagnostic summary add up to the number of
    lines of the output file: every line that is written is counted
    once, as mapped or as unknown. What the run prints after the two
    counts (the mismatch analysis) is there exactly when the count of
    unknown motifs is not zero. *)
Theorem annotate_counts repr list_of_set w gff fam out cf cg d :
  files w !! fam = Some (Regular cf) ->
  files w !! gff = Some (Regular cg) ->
  creatable w out -> out <> gff ->
  fst (for_with (lines_of cf) [] read_family w) = Ok d -> d <> [] ->
  exists w' text found unknown before after,
    add_family_column repr list_of_set gff fam out w = (Ok tt, w')
    /\ text_of w' out = Some text
    /\ stdout w'
       = stdout w ++ before
         ++ [lit "Successfully mapped motifs: " ++ str_of_nat found;
             lit "Motifs not found (marked as UNKNOWN): " ++ str_of_nat unknown]
         ++ after
    /\ found + unknown = length (lines_of text)
    /\ (unknown = 0 <-> after = []).
Proof.
  intros Hfam Hgff Hout Hne Hd Hd0. apply lookup_built in Hd. subst d.
  pose proof (add_family_column_run repr list_of_set w gff fam out cf cg
                Hfam Hgff Hout Hne Hd0) as Hrun.
  cbv zeta in Hrun. rewrite Hrun.
  set (d := lookup_of (lines_of cf)) in *.
  set (dg := fold_left (tally d) (lines_of cg) (Diag 0 0 ∅ ∅)) in *.
  eexists. exists (concat (gff_rows d (lines_of cg))),
                  (found_count dg), (unknown_count dg).
  exists ([lit "--- Starting Process ---";
           lit "Reading TE family map from '" ++ fam ++ lit "'..."]
          ++ lookup_warnings (lines_of cf)
          ++ [lit "Successfully mapped " ++ str_of_nat (length d) ++ lit " motifs.";
              lit "Processing '" ++ gff ++ lit "' and writing to '" ++ out ++ lit "'...";
              [NL] ++ lit "--- Process Finished ---";
              lit "Output file saved to '" ++ out ++ lit "'";
              [NL] ++ lit "--- Diagnostic Summary ---"]).
  eexists. split; [reflexivity |]. split.
  { unfold text_of. cbn [files]. now rewrite lookup_insert_eq. }
  split.
  { cbn [stdout]. unfold report. rewrite <- !app_assoc. cbn [app]. reflexivity. }
  split.
  { pose proof (gff_rows_read_back cf cg) as Hback. cbv zeta in Hback.
    fold d in Hback. rewrite Hback.
    pose proof (tally_fold_counts d (lines_of cg) (Diag 0 0 ∅ ∅)) as Hc.
    fold dg in Hc. cbn [found_count unknown_count] in Hc. lia. }
  destruct (unknown_count dg) as [|n]; cbn [Nat.ltb Nat.leb].
  - split; reflexivity.
  - split; [discriminate |]. cbn [app]. discriminate.
Qed.

Lemma annotate_counts_witness :
  exists w' text,
    add_family_column (fun s => [APOS] ++ s ++ [APOS]) elements
      (lit "te.gff") (lit "families.tsv") (lit "out.gff") Sample.world_B
    = (Ok tt, w')
    /\ text_of w' (lit "out.gff") = Some text
    /\ length (lines_of text) = 3
    /\ lit "Successfully mapped motifs: 1" ∈ stdout w'
    /\ lit "Motifs not found (marked as UNKNOWN): 2" ∈ stdout w'.
Proof.
  destruct (annotate_counts (fun s => [APOS] ++ s ++ [APOS]) elements
              Sample.world_B (lit "te.gff") (lit "families.tsv") (lit "out.gff")
              Sample.lookup_text Sample.gff_text
              [(lit "rnd-1_family", lit "LINE"); (lit "rnd-2_family", lit "DNA")])
    as (w' & text & found & unknown & before & after & Hrun & Htext & _).
  - reflexivity.
  - reflexivity.
  - intros e. vm_compute. discriminate.
  - vm_compute. discriminate.
  - vm_compute. reflexivity.
  - discriminate.
  - exists w', text. split; [exact Hrun |]. split; [exact Htext |].
    assert (Hw' : w' = snd (add_family_column (fun s => [APOS] ++ s ++ [APOS]) elements
                              (lit "te.gff") (lit "families.tsv") (lit "out.gff")
                              Sample.world_B)) by now rewrite Hrun.
    rewrite Hw' in Htext |- *. vm_compute in Htext. injection Htext as <-.
    split; [vm_compute; reflexivity |].
    split; apply list_elem_of_In; vm_compute; tauto.
Defined.

(** *** The keys of the lookup *)

Lemma first_occurrences_snoc keys k :
  first_occurrences (keys ++ [k])
  = if decide (k ∈ keys) then first_occurrences keys
    else first_occurrences keys ++ [k].
Proof.
  unfold first_occurrences. rewrite rev_app_distr. cbn [rev app remove_dups].
  assert (Hrev : k ∈ rev keys <-> k ∈ keys).
  { rewrite !list_elem_of_In. symmetry. apply in_rev. }
  destruct (decide_rel elem_of k (rev keys)) as [Hin|Hin], (decide (k ∈ keys));
    try reflexivity; tauto.
Qed.

Lemma elem_of_first_occurrences keys k : k ∈ first_occurrences keys <-> k ∈ keys.
Proof.
  unfold first_occurrences.
  rewrite list_elem_of_In, <- in_rev, <- list_elem_of_In, elem_of_remove_dups.
  rewrite !list_elem_of_In. symmetry. apply in_rev.
Qed.

Lemma dict_keys_set d k v :
  dict_keys (dict_set d k v)
  = if decide (k ∈ dict_keys d) then dict_keys d else dict_keys d ++ [k].
Proof.
  induction d as [|[k0 v0] d IH]; cbn [dict_set dict_keys map fst].
  - destruct (decide (k ∈ [])) as [Hin|]; [| reflexivity].
    now apply elem_of_nil in Hin.
  - fold (dict_keys d). destruct (decide (k0 = k)) as [->|Hne].
    + cbn [map fst]. fold (dict_keys d).
      destruct (decide (k ∈ k :: dict_keys d)) as [|Hn]; [reflexivity |].
      exfalso. apply Hn. apply elem_of_cons. now left.
    + cbn [map fst]. fold (dict_keys (dict_set d k v)). rewrite IH.
      destruct (decide (k ∈ dict_keys d)) as [Hin|Hin],
               (decide (k ∈ k0 :: dict_keys d)) as [Hin'|Hin'];
        try reflexivity.
      * exfalso. apply Hin'. apply elem_of_cons. now right.
      * apply elem_of_cons in Hin' as [->|Hin']; [congruence | contradiction].
Qed.

(** X15. The keys of the dictionary that the lookup construction returns,
    in the order of the dictionary, are the first fields of the lines
    that are not blank and have exactly two tab-separated fields, each
    at the place of its first line: a later line with the same key
    changes the value and not the place. No key comes twice, so the
    number of motifs that the run prints as mapped is the number of
    different keys, not of lines. *)
Theorem lookup_keys_first_occurrence lines w :
  let keys :=
    omap (fun l => if nonblank l
                   then match split TAB (strip l) with
                        | [k; _] => Some k
                        | _ => None
                        end
                   else None) lines in
  exists d w',
    for_with lines [] read_family w = (Ok d, w')
    /\ dict_keys d = first_occurrences keys
    /\ NoDup (dict_keys d)
    /\ length d = length (first_occurrences keys).
Proof.
  intros keys. rewrite read_family_loop. fold (lookup_of lines).
  do 2 eexists. split; [reflexivity |].
  assert (Hkeys : dict_keys (lookup_of lines) = first_occurrences keys).
  { subst keys. induction lines as [|l lines IH] using rev_ind; [reflexivity |].
    rewrite lookup_of_snoc, omap_app.
    change (omap ?f [l])
      with (match f l with Some y => [y] | None => [] end).
    unfold entry. rewrite strip_idem.
    destruct (nonblank l);
      [| destruct (split TAB (strip l)) as [|a [|b [|c parts]]];
         now rewrite app_nil_r].
    destruct (split TAB (strip l)) as [|a [|b [|c parts]]];
      try now rewrite app_nil_r.
    rewrite dict_keys_set, first_occurrences_snoc, IH.
    destruct (decide (a ∈ first_occurrences _)) as [Hin|Hin],
             (decide (a ∈ omap _ lines)) as [Hin'|Hin'];
      try reflexivity; rewrite elem_of_first_occurrences in Hin; contradiction. }
  split; [exact Hkeys |]. split.
  - rewrite Hkeys. unfold first_occurrences.
    apply NoDup_ListNoDup, NoDup_rev, NoDup_ListNoDup, NoDup_remove_dups.
  - rewrite <- Hkeys. unfold dict_keys. now rewrite length_map.
Qed.

End AnnotateFurther.

(** ** The motif pattern: which match [re_search_motif] returns *)

Section MotifPattern.
Import Py.

Lemma motif_char_true c : motif_char c = true <-> c <> QUOTE /\ isspace c = false.
Proof.
  unfold motif_char. rewrite andb_true_iff, !negb_true_iff, N.eqb_neq. tauto.
Qed.

Lemma motif_char_false c : motif_char c = false <-> c = QUOTE \/ isspace c = true.
Proof.
  unfold motif_char. rewrite andb_false_iff, !negb_false_iff, N.eqb_eq. tauto.
Qed.

Lemma after_prefix_here p rest : after_prefix p (p ++ rest) = Some rest.
Proof.
  induction p as [|a p IH]; cbn [app after_prefix]; [now destruct rest |].
  now rewrite N.eqb_refl.
Qed.

Lemma span_motif_app g rest :
  Forall (fun c => motif_char c = true) g ->
  match rest with [] => True | c :: _ => motif_char c = false end ->
  span_motif (g ++ rest) = g.
Proof.
  intros Hg Hrest. induction Hg as [|c g Hc _ IH]; cbn [app span_motif].
  - destruct rest as [|c rest]; [reflexivity |]. cbn [span_motif]. now rewrite Hrest.
  - now rewrite Hc, IH.
Qed.

Lemma span_motif_head tl c g :
  span_motif tl = c :: g -> exists tl', tl = c :: tl' /\ motif_char c = true.
Proof.
  destruct tl as [|a tl]; cbn [span_motif]; [discriminate |].
  destruct (motif_char a) eqn:Ha; [| discriminate].
  intros [= <- _]. now exists tl.
Qed.

(** One step of the search, with the literal of the pattern named. *)
Lemma re_search_motif_cons a s :
  re_search_motif (a :: s)
  = match after_prefix (lit "Motif:") (a :: s) with
    | Some rest =>
        match span_motif rest with
        | [] => re_search_motif s
        | g => Some g
        end
    | None => re_search_motif s
    end.
Proof. reflexivity. Qed.

(** X16. The search finds nothing exactly when the text has no [Motif:]
    that is followed by a character other than a double quote and
    whitespace. *)
Theorem re_search_motif_none_iff s :
  re_search_motif s = None <->
  forall before c rest,
    s = before ++ lit "Motif:" ++ c :: rest -> c = QUOTE \/ isspace c = true.
Proof.
  split.
  - induction s as [|a s IH]; intros Hnone before c rest Hs.
    + destruct before; discriminate Hs.
    + rewrite re_search_motif_cons in Hnone. destruct before as [|b before].
      * cbn [app] in Hs. rewrite Hs, after_prefix_here in Hnone.
        cbn [span_motif] in Hnone. apply motif_char_false.
        destruct (motif_char c); [discriminate Hnone | reflexivity].
      * injection Hs as _ Hs. apply (IH) with (before := before) (rest := rest);
          [| exact Hs].
        destruct (after_prefix (lit "Motif:") (a :: s)) as [tl|]; [| exact Hnone].
        destruct (span_motif tl); [exact Hnone | discriminate Hnone].
  - intros H. destruct (re_search_motif s) as [g|] eqn:E; [exfalso | reflexivity].
    apply re_search_motif_sound in E as (before & rest & Hs & Hg & Hall & _).
    destruct g as [|c g]; [contradiction |].
    inversion Hall as [|? ? [Hq Hsp] _]; subst.
    destruct (H before c (g ++ rest) eq_refl) as [Hc | Hc]; congruence.
Qed.

(** X17. What the search returns is the match of the pattern that starts
    first in the text, with the longest group there: the text is what
    comes before, [Motif:], the group and the rest; the group is not
    empty and has no double quote and no whitespace in it; the rest is
    empty or starts with one of these; and [Motif:] followed by a
    character of a group is nowhere earlier in the text. *)
Theorem re_search_motif_leftmost s g :
  re_search_motif s = Some g <->
  exists before rest,
    s = before ++ lit "Motif:" ++ g ++ rest
    /\ g <> []
    /\ Forall (fun c => c <> QUOTE /\ isspace c = false) g
    /\ match rest with [] => True | c :: _ => c = QUOTE \/ isspace c = true end
    /\ forall before' c rest',
         s = before' ++ lit "Motif:" ++ c :: rest' ->
         c <> QUOTE -> isspace c = false ->
         length before <= length before'.
Proof.
  split.
  - induction s as [|a s IH]; [discriminate |].
    rewrite re_search_motif_cons.
    assert (Hnext : (forall c rest', a :: s = lit "Motif:" ++ c :: rest' ->
                                     motif_char c = false) ->
                    re_search_motif s = Some g ->
                    exists before rest,
                      a :: s = before ++ lit "Motif:" ++ g ++ rest
                      /\ g <> []
                      /\ Forall (fun c => c <> QUOTE /\ isspace c = false) g
                      /\ match rest with
                         | [] => True
                         | c :: _ => c = QUOTE \/ isspace c = true
                         end
                      /\ forall before' c rest',
                           a :: s = before' ++ lit "Motif:" ++ c :: rest' ->
                           c <> QUOTE -> isspace c = false ->
                           length before <= length before').
    { intros Hhere H. destruct (IH H) as (before & rest & Hs & Hg & Hall & Hrest & Hleft).
      exists (a :: before), rest. rewrite Hs at 1. repeat split; try assumption.
      intros [|b before'] c rest' Hs' Hq Hsp.
      - cbn [app] in Hs'. apply Hhere in Hs'. apply motif_char_false in Hs'.
        destruct Hs'; congruence.
      - injection Hs' as _ Hs'. cbn [length].
        apply le_n_S. now apply (Hleft before' c rest'). }
    destruct (after_prefix (lit "Motif:") (a :: s)) as [tl|] eqn:E.
    + apply after_prefix_app in E.
      destruct (span_motif tl) as [|c g'] eqn:Eg.
      * apply Hnext. intros c rest' Hs'. rewrite E in Hs'.
        apply app_inv_head in Hs'. subst tl. cbn [span_motif] in Eg.
        destruct (motif_char c); [discriminate Eg | reflexivity].
      * intros [= <-].
        destruct (span_motif_spec tl) as (rest & Htl & Hall & Hrest).
        rewrite Eg in Htl, Hall. exists [], rest. cbn [app length].
        split; [now rewrite E, Htl |]. split; [discriminate |].
        split; [eapply Forall_impl; [exact Hall |]; intros x; apply motif_char_true |].
        split; [destruct rest; [exact I | now apply motif_char_false] |].
        intros. lia.
    + apply Hnext. intros c rest' Hs'. rewrite Hs', after_prefix_here in E.
      discriminate E.
  - intros (before & rest & Hs & Hg & Hall & Hrest & Hleft). subst s.
    assert (Hspan : span_motif (g ++ rest) = g).
    { apply span_motif_app.
      - eapply Forall_impl; [exact Hall |]. intros x. apply motif_char_true.
      - destruct rest; [exact I | now apply motif_char_false]. }
    induction before as [|b before IH].
    + cbn [app]. destruct (lit "Motif:" ++ g ++ rest) as [|a s] eqn:E;
        [discriminate E |].
      rewrite re_search_motif_cons, <- E, after_prefix_here, Hspan.
      now destruct g.
    + cbn [app]. rewrite re_search_motif_cons.
      assert (Hrec : re_search_motif (before ++ lit "Motif:" ++ g ++ rest) = Some g).
      { apply IH. intros before' c rest' Hs' Hq Hsp.
        apply le_S_n. apply (Hleft (b :: before') c rest'); [| exact Hq | exact Hsp].
        cbn [app]. now rewrite Hs'. }
      destruct (after_prefix (lit "Motif:") (b :: before ++ lit "Motif:" ++ g ++ rest))
        as [tl|] eqn:E; [| exact Hrec].
      destruct (span_motif tl) as [|c g'] eqn:Eg; [exact Hrec |].
      exfalso. apply after_prefix_app in E.
      apply span_motif_head in Eg as (tl' & -> & Hc). apply motif_char_true in Hc as [Hq Hsp].
      specialize (Hleft [] c tl' E Hq Hsp). cbn [length] in Hleft. lia.
Qed.

End MotifPattern.

(** ** Stage B: the columns of the output *)

Section AnnotateColumns.
Import Py AddTEclass Rows.

Lemma split_at_sep sep a b : split sep (a ++ sep :: b) = split sep a ++ split sep b.
Proof.
  induction a as [|c a IH]; cbn [app split].
  - now rewrite N.eqb_refl.
  - destruct (c =? sep)%N; rewrite IH; [reflexivity |].
    pose proof (split_nonempty sep a) as Hne.
    now destruct (split sep a).
Qed.

Lemma split_fields sep s : Forall (Forall (fun c => c <> sep)) (split sep s).
Proof.
  induction s as [|c s IH]; cbn [split]; [now repeat constructor |].
  destruct (N.eqb_spec c sep) as [->|Hne]; [now repeat constructor |].
  destruct (split sep s) as [|f fs]; [now repeat constructor |].
  inversion IH; subst. now repeat constructor.
Qed.

Lemma ends_clean_app a b : ends_clean b -> ends_clean (a ++ b).
Proof.
  intros (x & Hx & Hsp). exists x. split; [| exact Hsp].
  apply last_Some in Hx as [b' ->]. rewrite app_assoc. apply last_snoc.
Qed.

(** A value of the dictionary is the second of the two fields of a
    trimmed line: it is not empty, has no tab in it and does not end
    with whitespace. *)
Lemma lookup_value_clean lines k v :
  dict_get (lookup_of lines) k = Some v ->
  v <> [] /\ Forall (fun c => c <> TAB) v /\ ends_clean v.
Proof.
  intros H. apply lookup_of_last in H as (pre & l & post & _ & Hnb & Hsp & _).
  apply nonblank_strip in Hnb.
  pose proof (split_fields TAB (strip l)) as Hf. rewrite Hsp in Hf.
  pose proof (join_split TAB (strip l)) as Hj. rewrite Hsp in Hj. cbn [join] in Hj.
  destruct (strip_ends_clean l Hnb) as (x & Hx & Hsx).
  assert (Hv : v <> []).
  { intros ->. rewrite <- Hj in Hx. rewrite app_assoc, app_nil_r, last_snoc in Hx.
    injection Hx as <-. discriminate Hsx. }
  split; [exact Hv |]. split.
  - inversion Hf as [|? ? _ Hf']; subst. now inversion Hf'.
  - exists x. split; [| exact Hsx].
    destruct (exists_last Hv) as (v' & y & ->).
    rewrite <- Hj in Hx. rewrite !app_assoc, last_snoc in Hx.
    injection Hx as ->. apply last_snoc.
Qed.

Lemma label_clean lines l :
  let lab := label (lookup_of lines) l in
  lab <> [] /\ Forall (fun c => c <> TAB) lab /\ ends_clean lab.
Proof.
  assert (Hunknown : lit "UNKNOWN" <> [] /\ Forall (fun c => c <> TAB) (lit "UNKNOWN")
                     /\ ends_clean (lit "UNKNOWN")).
  { split; [discriminate |]. split; [repeat constructor; discriminate |].
    exists 78%N. split; reflexivity. }
  cbv zeta. unfold label.
  destruct (re_search_motif (attributes l)) as [motif|]; [| exact Hunknown].
  destruct (dict_get (lookup_of lines) motif) as [family|] eqn:E; [| exact Hunknown].
  exact (lookup_value_clean _ _ _ E).
Qed.

(** A row of the output, trimmed and split on tabs, is the fields of
    its line and the label. *)
Lemma row_fields lines l :
  strip l <> [] ->
  let lab := label (lookup_of lines) l in
  let row := strip l ++ [TAB] ++ lab ++ [NL] in
  strip row = strip l ++ TAB :: lab
  /\ split TAB (strip row) = split TAB (strip l) ++ [lab].
Proof.
  intros Hne. cbv zeta.
  destruct (label_clean lines l) as (Hlab & Htab & Hend). cbv zeta in Hlab, Htab, Hend.
  assert (Hstrip : strip (strip l ++ [TAB] ++ label (lookup_of lines) l ++ [NL])
                   = strip l ++ TAB :: label (lookup_of lines) l).
  { replace (strip l ++ [TAB] ++ label (lookup_of lines) l ++ [NL])
      with ((strip l ++ TAB :: label (lookup_of lines) l) ++ [NL])
      by (now rewrite <- app_assoc).
    rewrite strip_newline.
    destruct (strip l) as [|c s] eqn:E; [contradiction |].
    cbn [app]. apply strip_clean; [exact (strip_head _ _ _ E) |].
    replace (c :: s ++ TAB :: label (lookup_of lines) l)
      with ((c :: s ++ [TAB]) ++ label (lookup_of lines) l)
      by (cbn [app]; now rewrite <- app_assoc).
    now apply ends_clean_app. }
  split; [exact Hstrip |].
  rewrite Hstrip, split_at_sep. f_equal. now apply split_no_sep.
Qed.

(** X18. Every line of the output of a run has the columns of its line of
    the GFF file and one more, the label: trimmed and split on tabs it
    gives the fields of the trimmed input line followed by the label,
    at least ten fields. The label is [UNKNOWN] or the value that the
    dictionary has for the motif found in the ninth field. *)
Theorem annotate_row_fields repr list_of_set w gff fam out cf cg d :
  files w !! fam = Some (Regular cf) ->
  files w !! gff = Some (Regular cg) ->
  creatable w out -> out <> gff ->
  fst (for_with (lines_of cf) [] read_family w) = Ok d -> d <> [] ->
  exists w' text,
    add_family_column repr list_of_set gff fam out w = (Ok tt, w')
    /\ text_of w' out = Some text
    /\ forall r, r ∈ lines_of text ->
         exists l lab,
           l ∈ lines_of cg
           /\ r = strip l ++ [TAB] ++ lab ++ [NL]
           /\ split TAB (strip r) = split TAB (strip l) ++ [lab]
           /\ 10 <= length (split TAB (strip r))
           /\ (lab = lit "UNKNOWN"
               \/ exists motif,
                    re_search_motif (nth 8 (split TAB (strip l)) []) = Some motif
                    /\ dict_get d motif = Some lab).
Proof.
  intros Hfam Hgff Hout Hne Hd Hd0. apply lookup_built in Hd. subst d.
  pose proof (add_family_column_run repr list_of_set w gff fam out cf cg
                Hfam Hgff Hout Hne Hd0) as Hrun.
  cbv zeta in Hrun. rewrite Hrun.
  pose proof (gff_rows_read_back cf cg) as Hback. cbv zeta in Hback.
  eexists. exists (concat (gff_rows (lookup_of (lines_of cf)) (lines_of cg))).
  split; [reflexivity |]. split.
  { unfold text_of. cbn [files]. now rewrite lookup_insert_eq. }
  rewrite Hback. intros r Hr. unfold gff_rows in Hr.
  apply list_elem_of_omap in Hr as (l & Hin & Hrow).
  apply gff_row_inv in Hrow as [Hq ->].
  apply qualifies_spec in Hq as (_ & Hnb & H9).
  destruct (row_fields (lines_of cf) l Hnb) as [_ Hsplit]. cbv zeta in Hsplit.
  exists l, (label (lookup_of (lines_of cf)) l).
  split; [exact Hin |]. split; [reflexivity |]. split; [exact Hsplit |]. split.
  - rewrite Hsplit, length_app. cbn [length]. lia.
  - unfold label, attributes.
    destruct (re_search_motif (nth 8 (split TAB (strip l)) [])) as [motif|];
      [| now left].
    destruct (dict_get (lookup_of (lines_of cf)) motif) as [family|] eqn:E;
      [| now left].
    right. now exists motif.
Qed.

Lemma annotate_row_fields_witness :
  exists w' text,
    add_family_column (fun s => [APOS] ++ s ++ [APOS]) elements
      (lit "te.gff") (lit "families.tsv") (lit "out.gff") Sample.world_B
    = (Ok tt, w')
    /\ text_of w' (lit "out.gff") = Some text
    /\ Forall (fun r => 10 <= length (split TAB (strip r))) (lines_of text)
    /\ map (fun r => nth 9 (split TAB (strip r)) []) (lines_of text)
       = [lit "LINE"; lit "UNKNOWN"; lit "UNKNOWN"].
Proof.
  destruct (annotate_row_fields (fun s => [APOS] ++ s ++ [APOS]) elements
              Sample.world_B (lit "te.gff") (lit "families.tsv") (lit "out.gff")
              Sample.lookup_text Sample.gff_text
              [(lit "rnd-1_family", lit "LINE"); (lit "rnd-2_family", lit "DNA")])
    as (w' & text & Hrun & Htext & Hrows).
  - reflexivity.
  - reflexivity.
  - intros e. vm_compute. discriminate.
  - vm_compute. discriminate.
  - vm_compute. reflexivity.
  - discriminate.
  - exists w', text. split; [exact Hrun |]. split; [exact Htext |]. split.
    + apply Forall_forall. intros r Hr.
      destruct (Hrows r Hr) as (l & lab & _ & _ & _ & Hlen & _). exact Hlen.
    + assert (Hw' : w' = snd (add_family_column (fun s => [APOS] ++ s ++ [APOS])
                                elements (lit "te.gff") (lit "families.tsv")
                                (lit "out.gff") Sample.world_B))
        by now rewrite Hrun.
      rewrite Hw' in Htext. vm_compute in Htext. injection Htext as <-.
      vm_compute. reflexivity.
Defined.



End AnnotateColumns.

(** ** Stage B: the examples of the mismatch analysis *)

Section AnnotateExamples.
Import Py AddTEclass Rows.




End AnnotateExamples.
